(** * Kupmios: a shallow embedding of [src/provider/kupmios.ts]

    The provider talks to two services: Kupo (a chain indexer, over HTTP) and
    Ogmios (a node bridge, one JSON-RPC request per WebSocket).  The services
    are the environment of the program: a Kupo instance is a table from URLs
    to the JSON bodies it answers with, an Ogmios answer is the first message
    received on the socket.  A rejected promise is the [Err] branch of
    [result]; [await] is the bind of that monad.

    JavaScript values are embedded as follows: strings are ASCII [string]s;
    integer-valued numbers and BigInts are [Z]; [null]/[undefined] fields are
    [option]s; the two divisions of [getProtocolParameters] are carried out on
    IEEE 754 binary64 numbers ([PrimFloat.float]). *)

From Stdlib Require Import ZArith List String Ascii Lia Bool.
From Stdlib Require Import PrimFloat FloatOps SpecFloat FloatAxioms.
From stdpp Require Import base option list strings gmap.
Import ListNotations.

Open Scope string_scope.
Open Scope list_scope.

(** ** JavaScript primitives used by the provider *)
Module Js.

(** What a promise is rejected with. *)
Inductive error : Type :=
| Error (msg : string)          (* [throw new Error(msg)] *)
| TypeError (what : string)     (* property read on, or destructuring of, [undefined]/[null] *)
| SyntaxError.                  (* [JSON.parse] on a malformed message *)

Inductive result (E A : Type) : Type :=
| Ok (a : A)
| Err (e : E).
Arguments Ok {E A} a.
Arguments Err {E A} e.

Definition bind {E A B} (m : result E A) (f : A -> result E B) : result E B :=
  match m with
  | Ok a => f a
  | Err e => Err e
  end.

Definition is_ok {E A} (m : result E A) : bool :=
  match m with Ok _ => true | Err _ => false end.

(** [Promise.all(xs.map(f))]: the array of results, in input order, when
    every promise fulfils; a rejection otherwise.  When several promises
    reject the model reports the leftmost one. *)
Fixpoint promise_all {E A B} (f : A -> result E B) (xs : list A) : result E (list B) :=
  match xs with
  | [] => Ok []
  | x :: xs' =>
      bind (f x) (fun y => bind (promise_all f xs') (fun ys => Ok (y :: ys)))
  end.

(** Truthiness of a string-or-null value: [null], [undefined] and the empty
    string are falsy. *)
Definition truthy (v : option string) : bool :=
  match v with
  | Some (String _ _) => true
  | _ => false
  end.

(** [`${v}`] for a string-or-null value. *)
Definition template (v : option string) : string :=
  match v with
  | Some s => s
  | None => "null"
  end.

(** [v === lit] for a string-or-undefined value and a string literal. *)
Definition strict_eq (v : option string) (lit : string) : bool :=
  match v with
  | Some s => bool_decide (s = lit)
  | None => false
  end.

(** [s.split(sep)] for a one-character separator. *)
Fixpoint split (sep : ascii) (s : string) : list string :=
  match s with
  | "" => [""]
  | String c s' =>
      if bool_decide (c = sep) then "" :: split sep s'
      else match split sep s' with
           | [] => [String c ""]
           | w :: ws => String c w :: ws
           end
  end.

(** [s.replace(pat, "")] for a one-character pattern: the first occurrence
    is removed. *)
Fixpoint remove_first (pat : ascii) (s : string) : string :=
  match s with
  | "" => ""
  | String c s' => if bool_decide (c = pat) then s' else String c (remove_first pat s')
  end.

(** [s.startsWith(p)], returning the rest of [s]. *)
Fixpoint strip_prefix (p s : string) : option string :=
  match p, s with
  | "", _ => Some s
  | String a p', String b s' => if bool_decide (a = b) then strip_prefix p' s' else None
  | String _ _, "" => None
  end.

(** *** [parseInt] *)

(** White space and line terminators of the ASCII range. *)
Definition is_space (c : ascii) : bool :=
  let n := nat_of_ascii c in
  (Nat.eqb n 9 || Nat.eqb n 10 || Nat.eqb n 11 || Nat.eqb n 12 || Nat.eqb n 13 || Nat.eqb n 32)%bool.

Fixpoint trim_start (s : string) : string :=
  match s with
  | String c s' => if is_space c then trim_start s' else s
  | "" => ""
  end.

(** Value of a character as a digit of the given radix (10 or 16). *)
Definition digit (radix : N) (c : ascii) : option N :=
  let n := N_of_ascii c in
  let v :=
    if (48 <=? n)%N && (n <=? 57)%N then Some (n - 48)%N
    else if (97 <=? n)%N && (n <=? 102)%N then Some (n - 87)%N
    else if (65 <=? n)%N && (n <=? 70)%N then Some (n - 55)%N
    else None in
  match v with
  | Some d => if (d <? radix)%N then Some d else None
  | None => None
  end.

(** The longest prefix of digits, read left to right; [acc] is [None] until
    a first digit has been read. *)
Fixpoint digits (radix : N) (acc : option N) (s : string) : option N :=
  match s with
  | "" => acc
  | String c s' =>
      match digit radix c with
      | Some d => digits radix (Some (radix * default 0%N acc + d)%N) s'
      | None => acc
      end
  end.

(** The digits of [parseInt(s)], after white space and sign: a [0x]/[0X]
    prefix selects radix 16, and the longest prefix of digits gives the
    magnitude. *)
Definition magnitude (s : string) : option N :=
  let '(radix, s) :=
    match s with
    | String "0" (String "x" s') => (16%N, s')
    | String "0" (String "X" s') => (16%N, s')
    | _ => (10%N, s)
    end in
  digits radix None s.

(** [parseInt(s)] without a radix argument: leading white space is skipped,
    a sign is read, then the magnitude.  [None] is [NaN]; the boolean is
    [true] for a minus sign. *)
Definition parseInt (s : string) : option (bool * N) :=
  let '(neg, s) :=
    match trim_start s with
    | String "-" s' => (true, s')
    | String "+" s' => (false, s')
    | s' => (false, s')
    end in
  match magnitude s with
  | Some m => Some (neg, m)
  | None => None
  end.

(** [parseInt(v)] for an array element that may be missing:
    [ToString(undefined)] is ["undefined"], which has no digits. *)
Definition parseInt_elem (v : option string) : option (bool * N) :=
  parseInt (default "undefined" v).

(** The Number a mathematical integer denotes: the nearest binary64 value,
    ties to even. *)
Definition number_of_N (m : N) : float :=
  SF2Prim (binary_normalize prec emax (Z.of_N m) 0 false).

(** The Number returned by [parseInt]: [NaN] without digits, [-0] for a
    negated zero. *)
Definition to_number (v : option (bool * N)) : float :=
  match v with
  | None => nan
  | Some (neg, m) => if neg then PrimFloat.opp (number_of_N m) else number_of_N m
  end.

(** The decimal numeral of a natural number, most significant digit first
    and without leading zeros; [fuel] bounds the number of digits after the
    first one. *)
Fixpoint decimal_go (fuel : nat) (n : N) (acc : string) : string :=
  let acc := String (ascii_of_N (48 + n mod 10)) acc in
  match fuel with
  | O => acc
  | S fuel' => if (n <? 10)%N then acc else decimal_go fuel' (n / 10) acc
  end.

Definition decimal (n : N) : string :=
  decimal_go (N.to_nat (N.log2 n)) n "".

(** [ToString] of an integer-valued Number below [1e21] in magnitude, where
    it prints the decimal digits; from [1e21] on it prints an exponent, which
    this function does not do. *)
Definition toString (n : Z) : string :=
  if (n <? 0)%Z then String "-" (decimal (Z.abs_N n)) else decimal (Z.abs_N n).

(** [parseInt(n)] for such a Number: the argument is converted to a string
    first.  The result is an integer again; [NaN] is mapped to [0] and does
    not occur.  The function is the code's on integers below [1e21] in
    magnitude that the answer carries exactly, see [safe_integer]. *)
Definition parseInt_integer (n : Z) : Z :=
  match parseInt (toString n) with
  | Some (true, m) => - Z.of_N m
  | Some (false, m) => Z.of_N m
  | None => 0
  end.

(** A character that is a decimal digit, and a string of such
    characters. *)
Definition decimal_digit (c : ascii) : Prop :=
  exists k, (k < 10)%N /\ c = ascii_of_N (48 + k).

Fixpoint digits_only (s : string) : Prop :=
  match s with
  | "" => True
  | String c s' => decimal_digit c /\ digits_only s'
  end.

(** A string in which the separator does not occur. *)
Fixpoint free_of (sep : ascii) (s : string) : Prop :=
  match s with
  | "" => True
  | String c s' => c <> sep /\ free_of sep s'
  end.

(** An integer that a JSON number carries exactly.  [JSON.parse] turns a
    number of an answer into the nearest binary64 value before the provider
    sees it; every integer of magnitude at most [2^53] is such a value, so
    that [BigInt] and [parseInt] give it back, while a larger one may reach
    them rounded (and from [1e21] on [parseInt] reads the exponent notation
    of [ToString]). *)
Definition safe_integer (n : Z) : Prop := (Z.abs n <= 2 ^ 53)%Z.

End Js.

(** [let* x := await m in k]: continue with the value of a fulfilled
    promise, propagate a rejection. *)
Notation "'let*' x ':=' 'await' m 'in' k" := (Js.bind m (fun x => k))
  (at level 10, x name, m at level 100, k at level 200).

(** ** Ogmios: protocol parameters (execution prices) *)
Module Params.

(** [result.scriptExecutionPrices] of the
    [queryLedgerState/protocolParameters] answer. *)
Record ScriptExecutionPrices : Type := {
  memory : string;
  cpu : string;
}.

(** The [priceMem] and [priceStep] fields of [getProtocolParameters]: both
    strings are split at ["/"], the first two pieces are destructured,
    each is read by [parseInt], and the two Numbers are divided. *)
Definition price (s : string) : float :=
  let parts := Js.split "/" s in
  let num := parts !! 0%nat in
  let denom := parts !! 1%nat in
  PrimFloat.div (Js.to_number (Js.parseInt_elem num)) (Js.to_number (Js.parseInt_elem denom)).

Definition priceMem (p : ScriptExecutionPrices) : float := price (memory p).
Definition priceStep (p : ScriptExecutionPrices) : float := price (cpu p).

End Params.

(** ** The Cloudflare Access session of the adapter *)
Module Auth.

(** The fields of a [Kupmios] instance that authentication reads and
    writes.  [cfAuthorizationCookie] starts as [null]. *)
Record Session : Type := {
  clientId : string;
  clientSecret : string;
  cfAuthorizationCookie : option string;
}.

(** The state of a freshly constructed adapter. *)
Definition new (id secret : string) : Session :=
  {| clientId := id; clientSecret := secret; cfAuthorizationCookie := None |}.

(** A [Headers] object, as the list of the entries that were [set]. *)
Definition Headers : Type := list (string * string).

(** [getAuthHeaders] *)
Definition getAuthHeaders (s : Session) : Headers :=
  if Js.truthy (cfAuthorizationCookie s) then
    [("Cookie", "CF_Authorization=" +:+ Js.template (cfAuthorizationCookie s))]
  else
    [("CF-Access-Client-Id", clientId s); ("CF-Access-Client-Secret", clientSecret s)].

(** The longest prefix of [s] without a [";"]: what [[^;]+] consumes. *)
Fixpoint until_semicolon (s : string) : string :=
  match s with
  | "" => ""
  | String c s' => if bool_decide (c = ";"%char) then "" else String c (until_semicolon s')
  end.

(** [cookieHeader.match(/CF_Authorization=([^;]+)/)]: the capture group of
    the leftmost match, [None] when there is no match.  A match starts at
    the first position where the name and [=] are followed by at least one
    character other than [";"]. *)
Fixpoint cookie_match (s : string) : option string :=
  match s with
  | "" => None
  | String _ s' =>
      match Js.strip_prefix "CF_Authorization=" s with
      | Some rest =>
          match until_semicolon rest with
          | "" => cookie_match s'
          | captured => Some captured
          end
      | None => cookie_match s'
      end
  end.

(** What [authenticatedFetch] looks at in a response: the value of
    [headers.get("Set-Cookie")], [None] when [headers.has] is false. *)
Definition SetCookie : Type := option string.

(** The second half of [authenticatedFetch]: the cookie field is written
    only when the header is there, non-empty, and matches. *)
Definition observe (s : Session) (h : SetCookie) : Session :=
  match h with
  | Some (String _ _ as cookieHeader) =>
      match cookie_match cookieHeader with
      | Some captured =>
          {| clientId := clientId s; clientSecret := clientSecret s;
             cfAuthorizationCookie := Some captured |}
      | None => s
      end
  | _ => s
  end.

(** A call that is not interleaved with another one: the headers it sends
    and the session it leaves behind. *)
Definition authenticatedFetch (s : Session) (response : SetCookie) : Headers * Session :=
  (getAuthHeaders s, observe s response).

(** Calls may overlap ([Promise.all] in [getUtxosByOutRef]); each one reads
    the session once, when its headers are prepared, and writes it once,
    when its response arrives.  A history of the adapter is a sequence of
    these two kinds of steps. *)
Inductive event : Type :=
| Request                         (* a call prepares its headers *)
| Response (h : SetCookie).       (* the response of some call arrives *)

Definition step (s : Session) (e : event) : Session :=
  match e with
  | Request => s
  | Response h => observe s h
  end.

(** The session after a history. *)
Definition after (s : Session) (history : list event) : Session :=
  foldl step s history.

(** A response that establishes a session: it carries a cookie header in
    which the pattern matches. *)
Definition establishes (e : event) : bool :=
  match e with
  | Response (Some h) => bool_decide (is_Some (cookie_match h))
  | _ => false
  end.

End Auth.

(** ** Kupo: unspent outputs, datums and scripts *)
Module Kupo.

(** The JSON bodies Kupo answers with. *)
Module Raw.

(** The amounts are the integers written in the answer; the provider sees
    them after [res.json()], exactly when they are [Js.safe_integer]s. *)
Record Value : Type := {
  coins : Z;
  assets : list (string * Z);       (* in [Object.keys] order *)
}.

(** An element of the answer to [GET /matches/...]. *)
Record Match : Type := {
  transaction_id : string;
  output_index : Z;
  address : string;
  value : Value;
  datum_hash : option string;       (* [null] when the output has no datum *)
  datum_type : option string;       (* ["hash"], ["inline"], or missing *)
  script_hash : option string;      (* [null] when the output has no script *)
}.

(** The answer to [GET /datums/...], when it is not [null]. *)
Record Datum : Type := {
  datum : option string;
}.

(** The answer to [GET /scripts/...], when it is not [null]. *)
Record Script : Type := {
  script : string;
  language : string;
}.

End Raw.

(** A Kupo instance: the body of the answer to a GET request, by URL. *)
Record Indexer : Type := {
  matches : string -> list Raw.Match;
  datums : string -> option Raw.Datum;
  scripts : string -> option Raw.Script;
}.

Inductive ScriptType : Type := Native | PlutusV1 | PlutusV2.

Record Script : Type := {
  type : ScriptType;
  script : string;
}.

(** The value of [utxo.script_hash && (await ...)]: the falsy hash itself,
    or what the fetch returned, which is [undefined] for a language the
    provider does not know. *)
Inductive ScriptRef : Type :=
| NoScript (script_hash : option string)
| ScriptUndefined
| ScriptOf (s : Script).

Record UTxO : Type := {
  txHash : string;
  outputIndex : Z;
  address : string;
  assets : gmap string Z;
  datumHash : option string;
  datum : option string;
  scriptRef : ScriptRef;
}.

Module OutRef.
Record t : Type := {
  txHash : string;
  outputIndex : Z;
}.
End OutRef.

(** The (transaction hash, output index) pair of a UTxO, of a raw record,
    and of an output reference. *)
Definition ref (u : UTxO) : string * Z := (txHash u, outputIndex u).
Definition rawRef (r : Raw.Match) : string * Z :=
  (Raw.transaction_id r, Raw.output_index r).
Definition outRefPair (o : OutRef.t) : string * Z :=
  (OutRef.txHash o, OutRef.outputIndex o).

Inductive AddressOrCredential : Type :=
| Address (bech32 : string)
| Credential (hash : string).

(** [[...new Set(xs)]]: the distinct elements, in order of first
    occurrence. *)
Definition unique (xs : list string) : list string :=
  foldl (fun (seen : list string) x =>
           if bool_decide (x ∈ seen) then seen else (seen ++ [x])%list) [] xs.

Section Provider.

(** The adapter's [kupoUrl]. *)
Variable kupoUrl : string.

(** [fromUnit] of [utils/mod.ts], restricted to the two fields the
    provider reads: the policy id and the asset name ([null] when the
    unit has none). *)
Variable fromUnit : string -> string * option string.

(** [toHex(C.PlutusScript.new(fromHex(script)).to_bytes())]: the script
    re-encoded by the ledger library, which may throw. *)
Variable reencode : string -> Js.result Js.error string.

Variable kupo : Indexer.

Abbreviation result := (Js.result Js.error).

(** [getDatum] *)
Definition getDatum (datumHash : string) : result string :=
  match datums kupo (kupoUrl +:+ "/datums/" +:+ datumHash) with
  | Some {| Raw.datum := Some (String _ _ as body) |} => Js.Ok body
  | _ => Js.Err (Js.Error ("No datum found for datum hash: " +:+ datumHash))
  end.

(** The [assets] field built by [kupmiosUtxosToUtxos]; [BigInt] is taken on
    the amounts as the answer writes them, which is what the code sees for
    [Js.safe_integer]s. *)
Definition toAssets (v : Raw.Value) : gmap string Z :=
  foldl (fun a '(unit, quantity) => <[Js.remove_first "." unit := quantity]> a)
        {["lovelace" := Raw.coins v]} (Raw.assets v).

(** The [datum] field: fetched for an inline datum, [null] otherwise. *)
Definition resolveDatum (utxo : Raw.Match) : result (option string) :=
  if Js.strict_eq (Raw.datum_type utxo) "inline" then
    let* body := await getDatum (Js.template (Raw.datum_hash utxo)) in
    Js.Ok (Some body)
  else Js.Ok None.

(** The function awaited on the right of [utxo.script_hash &&]. *)
Definition fetchScript (script_hash : string) : result ScriptRef :=
  match scripts kupo (kupoUrl +:+ "/scripts/" +:+ script_hash) with
  | None => Js.Err (Js.TypeError "script")
  | Some s =>
      if bool_decide (Raw.language s = "native") then
        Js.Ok (ScriptOf {| type := Native; script := Raw.script s |})
      else if bool_decide (Raw.language s = "plutus:v1") then
        let* bytes := await reencode (Raw.script s) in
        Js.Ok (ScriptOf {| type := PlutusV1; script := bytes |})
      else if bool_decide (Raw.language s = "plutus:v2") then
        let* bytes := await reencode (Raw.script s) in
        Js.Ok (ScriptOf {| type := PlutusV2; script := bytes |})
      else Js.Ok ScriptUndefined
  end.

(** The [scriptRef] field. *)
Definition resolveScript (utxo : Raw.Match) : result ScriptRef :=
  if Js.truthy (Raw.script_hash utxo) then
    fetchScript (Js.template (Raw.script_hash utxo))
  else Js.Ok (NoScript (Raw.script_hash utxo)).

(** The callback of [kupmiosUtxosToUtxos]: one raw record to one UTxO.
    The datum is awaited before the script. *)
Definition kupmiosUtxoToUtxo (utxo : Raw.Match) : result UTxO :=
  let* body := await resolveDatum utxo in
  let* ref := await resolveScript utxo in
  Js.Ok {| txHash := Raw.transaction_id utxo;
           outputIndex := Js.parseInt_integer (Raw.output_index utxo);
           address := Raw.address utxo;
           assets := toAssets (Raw.value utxo);
           datumHash := if Js.strict_eq (Raw.datum_type utxo) "hash"
                        then Raw.datum_hash utxo else None;
           datum := body;
           scriptRef := ref |}.

(** [kupmiosUtxosToUtxos] *)
Definition kupmiosUtxosToUtxos (utxos : list Raw.Match) : result (list UTxO) :=
  Js.promise_all kupmiosUtxoToUtxo utxos.

(** [getUtxos] *)
Definition getUtxos (addressOrCredential : AddressOrCredential) : result (list UTxO) :=
  let '(queryPredicate, suffix) :=
    match addressOrCredential with
    | Address a => (a, "")
    | Credential h => (h, "/*")
    end in
  kupmiosUtxosToUtxos
    (matches kupo (kupoUrl +:+ "/matches/" +:+ queryPredicate +:+ suffix +:+ "?unspent")).

(** [getUtxosWithUnit] *)
Definition getUtxosWithUnit (addressOrCredential : AddressOrCredential) (unit : string)
  : result (list UTxO) :=
  let '(queryPredicate, suffix) :=
    match addressOrCredential with
    | Address a => (a, "")
    | Credential h => (h, "/*")
    end in
  let '(policyId, assetName) := fromUnit unit in
  kupmiosUtxosToUtxos
    (matches kupo (kupoUrl +:+ "/matches/" +:+ queryPredicate +:+ suffix
                   +:+ "?unspent&policy_id=" +:+ policyId
                   +:+ (if Js.truthy assetName
                        then "&asset_name=" +:+ Js.template assetName else ""))).

(** The URL of the exact-unit query of [getUtxoByUnit]. *)
Definition unitUrl (unit : string) : string :=
  let '(policyId, assetName) := fromUnit unit in
  kupoUrl +:+ "/matches/" +:+ policyId +:+ "."
  +:+ (if Js.truthy assetName then Js.template assetName else "*") +:+ "?unspent".

(** [getUtxoByUnit]; [utxos[0]] is [undefined] on an empty array. *)
Definition getUtxoByUnit (unit : string) : result (option UTxO) :=
  let* utxos := await kupmiosUtxosToUtxos (matches kupo (unitUrl unit)) in
  if (1 <? length utxos)%nat then
    Js.Err (Js.Error "Unit needs to be an NFT or only held by one address.")
  else Js.Ok (head utxos).

(** The URL of the per-transaction query of [getUtxosByOutRef]. *)
Definition txUrl (txHash : string) : string :=
  kupoUrl +:+ "/matches/*@" +:+ txHash +:+ "?unspent".

(** The answer of Kupo to the per-transaction query. *)
Definition outputsOf (txHash : string) : list Raw.Match :=
  matches kupo (txUrl txHash).

(** The predicate of the final [filter] of [getUtxosByOutRef]. *)
Definition requested (outRefs : list OutRef.t) (utxo : UTxO) : bool :=
  existsb (fun outRef =>
             bool_decide (txHash utxo = OutRef.txHash outRef)
             && bool_decide (outputIndex utxo = OutRef.outputIndex outRef))
          outRefs.

(** [getUtxosByOutRef] *)
Definition getUtxosByOutRef (outRefs : list OutRef.t) : result (list UTxO) :=
  let queryHashes := unique (OutRef.txHash <$> outRefs) in
  let* utxos := await
    Js.promise_all (fun txHash => kupmiosUtxosToUtxos (outputsOf txHash)) queryHashes in
  Js.Ok (filter (fun utxo => requested outRefs utxo = true)
                (foldl (fun acc utxos => (acc ++ utxos)%list) [] utxos)).

End Provider.

End Kupo.

(** ** Ogmios: delegation and submission *)
Module Ogmios.

(** The first message received on the socket: [JSON.parse] either throws
    or yields the answer. *)
Inductive Message (A : Type) : Type :=
| Malformed
| Json (answer : A).
Arguments Malformed {A}.
Arguments Json {A} answer.

(** *** [queryLedgerState/rewardAccountSummaries] *)

Record Delegate : Type := { id : string }.
Record Ada : Type := { lovelace : Z }.
Record Rewards : Type := { ada : Ada }.

(** A reward account summary; [{}] is the summary without fields. *)
Record Summary : Type := {
  delegate : option Delegate;
  rewards : option Rewards;
}.

(** The answer: [result] is the object of summaries, listed in
    [Object.values] order, or missing (an error answer carries no
    [result]). *)
Record SummariesAnswer : Type := {
  summaries : option (list (string * Summary));
}.

Module Delegation.
Record t : Type := {
  poolId : option string;
  rewards : Z;
}.
End Delegation.

(** [result ? Object.values(result)[0] : {}]; [None] is [undefined]. *)
Definition firstSummary (result : option (list (string * Summary))) : option Summary :=
  match result with
  | Some entries => head (map snd entries)
  | None => Some {| delegate := None; rewards := None |}
  end.

(** [delegation?.delegate.id || null]: the chain stops at an undefined
    [delegation] only. *)
Definition readPoolId (delegation : option Summary) : Js.result Js.error (option string) :=
  match delegation with
  | None => Js.Ok None
  | Some d =>
      match delegate d with
      | None => Js.Err (Js.TypeError "id")
      | Some p => Js.Ok (if Js.truthy (Some (id p)) then Some (id p) else None)
      end
  end.

(** [BigInt(delegation?.rewards.ada.lovelace || 0)], on the amount as the
    answer writes it, which is what the code sees for a
    [Js.safe_integer]. *)
Definition readRewards (delegation : option Summary) : Js.result Js.error Z :=
  match delegation with
  | None => Js.Ok 0%Z
  | Some d =>
      match rewards d with
      | None => Js.Err (Js.TypeError "ada")
      | Some r => Js.Ok (lovelace (ada r))
      end
  end.

(** The message handler of [getDelegation]. *)
Definition getDelegation (msg : Message SummariesAnswer) : Js.result Js.error Delegation.t :=
  match msg with
  | Malformed => Js.Err Js.SyntaxError
  | Json answer =>
      let delegation := firstSummary (summaries answer) in
      let* pool := await readPoolId delegation in
      let* amount := await readRewards delegation in
      Js.Ok {| Delegation.poolId := pool; Delegation.rewards := amount |}
  end.

(** *** [submitTransaction] *)

Module Transaction.
Record t : Type := { id : string }.
End Transaction.

Record SubmitResult : Type := { transaction : option Transaction.t }.

(** The [error] member of a JSON-RPC answer. *)
Record RpcError : Type := {
  code : Z;
  message : string;
}.

Record SubmitAnswer : Type := {
  result : option SubmitResult;
  error : option RpcError;
}.

(** What [submitTx] is rejected with: a thrown error, or the [error]
    member of the answer as it was received ([None] when the answer has
    none). *)
Inductive Rejection : Type :=
| Thrown (e : Js.error)
| Payload (error : option RpcError).

(** The message handler of [submitTx]. *)
Definition submitTx (msg : Message SubmitAnswer) : Js.result Rejection string :=
  match msg with
  | Malformed => Js.Err (Thrown Js.SyntaxError)
  | Json answer =>
      match result answer with
      | Some {| transaction := Some tx |} => Js.Ok (Transaction.id tx)
      | _ => Js.Err (Payload (error answer))
      end
  end.

End Ogmios.

(** ** Ogmios: the whole of [getProtocolParameters] *)
Module Protocol.

(** The JSON answer of Ogmios. *)
Module Raw.

Record Lovelace : Type := { lovelace : Z }.
Record AdaValue : Type := { ada : Lovelace }.
Record Bytes : Type := { bytes : Z }.
Record ExecutionUnits : Type := { memory : Z; cpu : Z }.
Record ReferenceScripts : Type := { base : Z }.

(** The [result] member of the answer, with the members the handler
    reads. *)
Record Result : Type := {
  plutusCostModels : list (string * list Z);      (* in [Object.keys] order *)
  scriptExecutionPrices : Params.ScriptExecutionPrices;
  minFeeCoefficient : Z;
  minFeeConstant : AdaValue;
  maxTransactionSize : Bytes;
  maxValueSize : Bytes;
  stakeCredentialDeposit : AdaValue;
  stakePoolDeposit : AdaValue;
  maxExecutionUnitsPerTransaction : ExecutionUnits;
  minUtxoDepositCoefficient : Z;
  collateralPercentage : Z;
  maxCollateralInputs : Z;
  minFeeReferenceScripts : ReferenceScripts;
}.

(** The answer; an error answer carries no [result]. *)
Record Answer : Type := {
  result : option Result;
}.

End Raw.







End Protocol.

(** ** Confirmation polling: [awaitTx] *)
Module AwaitTx.

(** The delay of the settle timer, in milliseconds. *)
Definition settleDelay : Z := 1000.

(** What is pending after [awaitTx] has been called at time [started]: the
    interval timer, the polls whose response has not arrived, the settle
    timers with the time each one is due, and the time at which the
    returned promise was resolved (with [true]; it is never rejected). *)
Record State : Type := {
  now : Z;
  interval : bool;                 (* [false] after [clearInterval] *)
  inFlight : nat;
  settling : list Z;
  polls : nat;                     (* polls started so far *)
  resolved : option Z;
}.

Definition init (started : Z) : State :=
  {| now := started; interval := true; inFlight := 0; settling := [];
     polls := 0; resolved := None |}.

(** The steps of the event loop, each at a time in milliseconds. *)
Inductive event : Type :=
| Tick (t : Z)                                        (* the interval callback starts a poll *)
| Response (t : Z) (body : option (list Kupo.Raw.Match))  (* the JSON body of a poll arrives *)
| Settled (t : Z) (due : Z).                          (* a settle timer fires *)

(** [isConfirmed && isConfirmed.length > 0] *)
Definition isConfirmed (body : option (list Kupo.Raw.Match)) : bool :=
  match body with
  | Some (_ :: _) => true
  | _ => false
  end.

Definition confirms (e : event) : bool :=
  match e with
  | Response _ body => isConfirmed body
  | _ => false
  end.

(** Removal of the first occurrence of a due time. *)
Fixpoint remove_due (due : Z) (l : list Z) : list Z :=
  match l with
  | [] => []
  | d :: l' => if bool_decide (d = due) then l' else d :: remove_due due l'
  end.

(** One step; [None] when the step cannot happen in this state.  Time does
    not go back; the interval callback runs no sooner than [checkInterval]
    after [started], and only while the interval is set; a response
    answers a poll in flight; a settle timer fires no sooner than it is
    due. *)
Definition step (started checkInterval : Z) (s : State) (e : event) : option State :=
  match e with
  | Tick t =>
      if bool_decide (now s <= t)%Z && interval s
         && bool_decide (started + checkInterval <= t)%Z then
        Some {| now := t; interval := true; inFlight := S (inFlight s);
                settling := settling s; polls := S (polls s); resolved := resolved s |}
      else None
  | Response t body =>
      match inFlight s with
      | O => None
      | S n =>
          if bool_decide (now s <= t)%Z then
            if isConfirmed body then
              Some {| now := t; interval := false; inFlight := n;
                      settling := (t + settleDelay)%Z :: settling s;
                      polls := polls s; resolved := resolved s |}
            else
              Some {| now := t; interval := interval s; inFlight := n;
                      settling := settling s; polls := polls s; resolved := resolved s |}
          else None
      end
  | Settled t due =>
      if bool_decide (now s <= t)%Z && bool_decide (due ∈ settling s)
         && bool_decide (due <= t)%Z then
        Some {| now := t; interval := interval s; inFlight := inFlight s;
                settling := remove_due due (settling s); polls := polls s;
                resolved := match resolved s with
                            | Some t0 => Some t0
                            | None => Some t
                            end |}
      else None
  end.

(** A history of steps from a state. *)
Fixpoint run (started checkInterval : Z) (s : State) (history : list event) : option State :=
  match history with
  | [] => Some s
  | e :: history' =>
      match step started checkInterval s e with
      | Some s' => run started checkInterval s' history'
      | None => None
      end
  end.

(** [awaitTx(txHash, checkInterval)] called at time [started], followed by
    a history. *)
Definition awaitTx (started checkInterval : Z) (history : list event) : option State :=
  run started checkInterval (init started) history.

(** What the steps keep true after [awaitTx] has been called. *)
Record invariant (started checkInterval : Z) (history : list event)
    (s : State) : Prop := {
  inv_polled : (0 < polls s)%nat -> (started + checkInterval <= now s)%Z;
  inv_inFlight : (inFlight s <= polls s)%nat;
  inv_interval : interval s = negb (existsb confirms history);
  inv_settling :
    forall due, due ∈ settling s ->
      exists t body, Response t body ∈ history /\ isConfirmed body = true /\
                     (started + checkInterval <= t)%Z /\ due = (t + settleDelay)%Z;
  inv_resolved :
    forall at_, resolved s = Some at_ ->
      exists t body, Response t body ∈ history /\ isConfirmed body = true /\
                     (started + checkInterval <= t)%Z /\ (t + settleDelay <= at_)%Z;
}.

End AwaitTx.

(** ** An answer of Ogmios to [queryLedgerState/protocolParameters] *)
Module ExampleOgmios.

Definition parameters : Protocol.Raw.Result :=
  {| Protocol.Raw.plutusCostModels :=
       [("plutus:v1", [100788; 420]%Z); ("plutus:v2", [100788; 420; 1]%Z)];
     Protocol.Raw.scriptExecutionPrices :=
       {| Params.memory := "577/10000"; Params.cpu := "721/10000000" |};
     Protocol.Raw.minFeeCoefficient := 44;
     Protocol.Raw.minFeeConstant :=
       {| Protocol.Raw.ada := {| Protocol.Raw.lovelace := 155381 |} |};
     Protocol.Raw.maxTransactionSize := {| Protocol.Raw.bytes := 16384 |};
     Protocol.Raw.maxValueSize := {| Protocol.Raw.bytes := 5000 |};
     Protocol.Raw.stakeCredentialDeposit :=
       {| Protocol.Raw.ada := {| Protocol.Raw.lovelace := 2000000 |} |};
     Protocol.Raw.stakePoolDeposit :=
       {| Protocol.Raw.ada := {| Protocol.Raw.lovelace := 500000000 |} |};
     Protocol.Raw.maxExecutionUnitsPerTransaction :=
       {| Protocol.Raw.memory := 14000000; Protocol.Raw.cpu := 10000000000 |};
     Protocol.Raw.minUtxoDepositCoefficient := 4310;
     Protocol.Raw.collateralPercentage := 150;
     Protocol.Raw.maxCollateralInputs := 3;
     Protocol.Raw.minFeeReferenceScripts := {| Protocol.Raw.base := 15 |} |}.

Definition answer : Protocol.Raw.Answer :=
  {| Protocol.Raw.result := Some parameters |}.

End ExampleOgmios.

(** ** A small Kupo instance

    Used to run the provider on concrete data. *)
Module Example.

Definition kupoUrl : string := "http://localhost:1442".

(** Modelled from the spec: [fromUnit] lives in [utils/mod.ts], outside the
    source file.  A unit is split into its policy id (the first 56
    characters) and its asset name (the rest, [null] when empty), so that
    joining the two gives the unit back. *)
Definition fromUnit (unit : string) : string * option string :=
  let assetName := substring 56 (String.length unit - 56) unit in
  (substring 0 56 unit, if Js.truthy (Some assetName) then Some assetName else None).

(** A stand-in for the ledger library, which is not part of the source
    file.  No example below re-encodes a Plutus script, so that its value
    is never used. *)
Definition reencode (script : string) : Js.result Js.error string := Js.Ok script.

Definition policy : string := "533bb94a8850ee3ccbe483106489399112b74c905342cb1792a797a0".

Definition output (tx : string) (ix : Z) (datum_hash datum_type script_hash : option string)
  : Kupo.Raw.Match :=
  {| Kupo.Raw.transaction_id := tx;
     Kupo.Raw.output_index := ix;
     Kupo.Raw.address := "addr_test1vzpwq95z3xyum8vqndgdd9mdnmafh3djcxnc6jemlgdmswcve6tkw";
     Kupo.Raw.value := {| Kupo.Raw.coins := 2000000;
                          Kupo.Raw.assets := [(policy +:+ ".494e4459", 1%Z)] |};
     Kupo.Raw.datum_hash := datum_hash;
     Kupo.Raw.datum_type := datum_type;
     Kupo.Raw.script_hash := script_hash |}.

(** Transaction [a1] has three unspent outputs: one without datum, one with
    a datum hash, one with an inline datum that Kupo knows.  Transaction
    [b2] has two: one without datum, and one with an inline datum whose body
    Kupo does not have.  Transaction [c3] has one output, which carries a
    script in a language the provider does not know.
    The token [policy.494e4459] is held by one output, [policy.6e6674] by
    one output ([b2_1]), and the whole policy by two. *)
Definition a1_0 : Kupo.Raw.Match := output "a1" 0 None None None.
Definition a1_1 : Kupo.Raw.Match := output "a1" 1 (Some "d1") (Some "hash") None.
Definition a1_2 : Kupo.Raw.Match := output "a1" 2 (Some "d2") (Some "inline") None.
Definition b2_0 : Kupo.Raw.Match := output "b2" 0 None None None.
Definition b2_1 : Kupo.Raw.Match := output "b2" 1 (Some "d9") (Some "inline") None.
Definition c3_0 : Kupo.Raw.Match := output "c3" 0 None None (Some "5c").

(** The answer found under a URL in a table, [otherwise] when there is
    none. *)
Fixpoint answer {A} (table : list (string * A)) (otherwise : A) (url : string) : A :=
  match table with
  | [] => otherwise
  | (key, body) :: table' => if bool_decide (url = key) then body else answer table' otherwise url
  end.

Definition kupo : Kupo.Indexer :=
  {| Kupo.matches :=
       answer [("http://localhost:1442/matches/*@a1?unspent", [a1_0; a1_1; a1_2]);
               ("http://localhost:1442/matches/*@b2?unspent", [b2_0; b2_1]);
               ("http://localhost:1442/matches/*@c3?unspent", [c3_0]);
               (kupoUrl +:+ "/matches/" +:+ policy +:+ ".494e4459?unspent", [a1_0]);
               (kupoUrl +:+ "/matches/" +:+ policy +:+ ".6e6674?unspent", [b2_1]);
               (kupoUrl +:+ "/matches/" +:+ policy +:+ ".*?unspent", [a1_0; b2_0]);
               (kupoUrl +:+ "/matches/" +:+ policy +:+ ".00?unspent", [b2_0; b2_1])] [];
     Kupo.datums :=
       answer [("http://localhost:1442/datums/d2", Some {| Kupo.Raw.datum := Some "d87980" |})]
              None;
     Kupo.scripts :=
       answer [("http://localhost:1442/scripts/5c",
                Some {| Kupo.Raw.script := "4e4d01000033222220051200120011";
                        Kupo.Raw.language := "plutus:v3" |})] None |}.

End Example.

(** * Properties *)

(** ** Promises *)

Lemma bind_ok {E A B} (m : Js.result E A) (f : A -> Js.result E B) b :
  Js.bind m f = Js.Ok b <-> exists a, m = Js.Ok a /\ f a = Js.Ok b.
Proof.
  destruct m as [a|e]; simpl; split.
  - eauto.
  - intros (a' & Ha & Hf). congruence.
  - discriminate.
  - intros (a' & Ha & _). discriminate.
Qed.

Lemma is_ok_eq {E A} (m : Js.result E A) : Js.is_ok m <-> exists a, m = Js.Ok a.
Proof.
  destruct m; simpl; split; eauto; try tauto.
  intros (a & Ha). discriminate.
Qed.

(** [Promise.all] fulfils exactly when every promise does, with the values
    in input order. *)
Lemma promise_all_ok {E A B} (f : A -> Js.result E B) xs ys :
  Js.promise_all f xs = Js.Ok ys <-> Forall2 (fun x y => f x = Js.Ok y) xs ys.
Proof.
  revert ys. induction xs as [|x xs IH]; intros ys; simpl.
  - split.
    + intros H. inversion H. constructor.
    + intros H. inversion H. reflexivity.
  - rewrite bind_ok. split.
    + intros (y & Hy & H). apply bind_ok in H as (ys' & Hys & H).
      inversion H; subst. constructor; [assumption|]. by apply IH.
    + intros H. inversion H as [|? y ? ys' Hy Hys]; subst.
      exists y. split; [assumption|].
      apply IH in Hys. rewrite Hys. reflexivity.
Qed.

Lemma promise_all_total {E A B} (f : A -> Js.result E B) xs :
  (forall x, x ∈ xs -> Js.is_ok (f x)) ->
  exists ys, Js.promise_all f xs = Js.Ok ys.
Proof.
  induction xs as [|x xs IH]; intros H; simpl.
  - eauto.
  - destruct (proj1 (is_ok_eq (f x)) (H x ltac:(left))) as [y Hy].
    destruct IH as [ys Hys]; [intros; apply H; by right|].
    exists (y :: ys). rewrite Hy, Hys. reflexivity.
Qed.

Lemma promise_all_each {E A B} (f : A -> Js.result E B) xs ys :
  Js.promise_all f xs = Js.Ok ys -> forall x, x ∈ xs -> Js.is_ok (f x).
Proof.
  intros H. apply promise_all_ok in H.
  induction H as [|x y xs ys Hxy _ IH]; intros z Hz.
  - by apply elem_of_nil in Hz.
  - apply elem_of_cons in Hz as [->|Hz]; [by rewrite Hxy | by apply IH].
Qed.

Lemma promise_all_length {E A B} (f : A -> Js.result E B) xs ys :
  Js.promise_all f xs = Js.Ok ys -> length ys = length xs.
Proof.
  intros H. apply promise_all_ok in H. symmetry. by eapply Forall2_length.
Qed.

(** ** Strings and numerals *)

Example parseInt_runs :
  Js.parseInt "10" = Some (false, 10%N) /\
  Js.parseInt "  -42px" = Some (true, 42%N) /\
  Js.parseInt "0x1F" = Some (false, 31%N) /\
  Js.parseInt "undefined" = None /\
  Js.parseInt "" = None.
Proof. repeat split. Qed.

Example split_runs :
  Js.split "/" "577/10000" = ["577"; "10000"] /\
  Js.split "/" "577" = ["577"] /\
  Js.split "/" "1//2" = ["1"; ""; "2"] /\
  Js.split "/" "" = [""].
Proof. repeat split. Qed.

(** Beyond [2^53] neighbouring integers share one binary64 value. *)
Example large_integers_are_rounded :
  Js.number_of_N 45000000000000001 = Js.number_of_N 45000000000000000 /\
  Js.number_of_N 9223372036854775807 = Js.number_of_N 9223372036854775808 /\
  Js.number_of_N (2 ^ 53) <> Js.number_of_N (2 ^ 53 - 1).
Proof.
  repeat split; try (vm_compute; reflexivity).
  intros H. apply (f_equal Prim2SF) in H. vm_compute in H. discriminate.
Qed.

Example decimal_runs :
  Js.decimal 0 = "0" /\ Js.decimal 577 = "577" /\ Js.toString (-10000) = "-10000".
Proof. repeat split. Qed.

Lemma digit_of_decimal_digit (k : N) :
  (k < 10)%N -> Js.digit 10 (ascii_of_N (48 + k)) = Some k.
Proof.
  intros Hk.
  assert (Hcases : k = 0%N \/ k = 1%N \/ k = 2%N \/ k = 3%N \/ k = 4%N \/ k = 5%N \/
                   k = 6%N \/ k = 7%N \/ k = 8%N \/ k = 9%N) by lia.
  repeat (destruct Hcases as [->|Hcases]; [reflexivity|]). subst k. reflexivity.
Qed.

(** Reading a numeral gives its number back, whatever follows it. *)
Lemma digits_decimal_go (fuel : nat) (n : N) (acc : string) :
  (n < 10 ^ N.of_nat (S fuel))%N ->
  Js.digits 10 None (Js.decimal_go fuel n acc) = Js.digits 10 (Some n) acc.
Proof.
  revert n acc. induction fuel as [|fuel IH]; intros n acc Hn; cbn [Js.decimal_go].
  - change (10 ^ N.of_nat 1)%N with 10%N in Hn.
    cbn [Js.digits]. rewrite N.mod_small by exact Hn.
    rewrite (digit_of_decimal_digit n Hn). reflexivity.
  - destruct (n <? 10)%N eqn:Hlt.
    + apply N.ltb_lt in Hlt.
      cbn [Js.digits]. rewrite N.mod_small by exact Hlt.
      rewrite (digit_of_decimal_digit n Hlt). reflexivity.
    + rewrite IH.
      * cbn [Js.digits].
        rewrite (digit_of_decimal_digit (n mod 10)) by (apply N.mod_lt; lia).
        cbn [default id]. rewrite <- (N.div_mod n 10) by lia. reflexivity.
      * apply N.Div0.div_lt_upper_bound.
        replace (N.of_nat (S (S fuel))) with (N.succ (N.of_nat (S fuel))) in Hn by lia.
        by rewrite N.pow_succ_r' in Hn.
Qed.

Lemma decimal_fuel (n : N) : (n < 10 ^ N.of_nat (S (N.to_nat (N.log2 n))))%N.
Proof.
  destruct (N.eq_dec n 0%N) as [->|Hn]; [reflexivity|].
  replace (N.of_nat (S (N.to_nat (N.log2 n)))) with (N.succ (N.log2 n)) by lia.
  apply N.lt_le_trans with (2 ^ N.succ (N.log2 n))%N.
  - apply N.log2_spec. lia.
  - apply N.pow_le_mono_l. lia.
Qed.

Lemma decimal_digit_cases c :
  Js.decimal_digit c ->
  c = "0"%char \/ c = "1"%char \/ c = "2"%char \/ c = "3"%char \/ c = "4"%char \/
  c = "5"%char \/ c = "6"%char \/ c = "7"%char \/ c = "8"%char \/ c = "9"%char.
Proof.
  intros (k & Hk & ->).
  assert (Hcases : k = 0%N \/ k = 1%N \/ k = 2%N \/ k = 3%N \/ k = 4%N \/ k = 5%N \/
                   k = 6%N \/ k = 7%N \/ k = 8%N \/ k = 9%N) by lia.
  repeat (destruct Hcases as [->|Hcases]; [tauto|]). subst k. tauto.
Qed.

Lemma decimal_go_digits_only fuel n acc :
  Js.digits_only acc ->
  exists c s, Js.decimal_go fuel n acc = String c s /\ Js.decimal_digit c /\ Js.digits_only s.
Proof.
  revert n acc. induction fuel as [|fuel IH]; intros n acc Hacc; cbn [Js.decimal_go].
  - eexists _, _. split; [reflexivity|]. split; [|exact Hacc].
    exists (n mod 10)%N. split; [apply N.mod_lt; lia | reflexivity].
  - destruct (n <? 10)%N.
    + eexists _, _. split; [reflexivity|]. split; [|exact Hacc].
      exists (n mod 10)%N. split; [apply N.mod_lt; lia | reflexivity].
    + apply IH. split; [|exact Hacc].
      exists (n mod 10)%N. split; [apply N.mod_lt; lia | reflexivity].
Qed.

(** [parseInt] reads a numeral back. *)
Lemma magnitude_decimal (n : N) : Js.magnitude (Js.decimal n) = Some n.
Proof.
  pose proof (digits_decimal_go (N.to_nat (N.log2 n)) n "" (decimal_fuel n)) as Hread.
  fold (Js.decimal n) in Hread. cbn [Js.digits] in Hread.
  destruct (decimal_go_digits_only (N.to_nat (N.log2 n)) n "" I) as (c & s & Hs & Hc & Hrest).
  fold (Js.decimal n) in Hs. rewrite Hs in *.
  unfold Js.magnitude.
  apply decimal_digit_cases in Hc.
  destruct s as [|c' s'].
  - repeat (destruct Hc as [->|Hc]; [exact Hread|]). subst c. exact Hread.
  - destruct Hrest as [Hc' _]. apply decimal_digit_cases in Hc'.
    repeat (destruct Hc as [->|Hc]; [|]); try exact Hread.
    + repeat (destruct Hc' as [->|Hc']; [exact Hread|]). subst c'. exact Hread.
    + subst c. exact Hread.
Qed.

Lemma parseInt_decimal (n : N) : Js.parseInt (Js.decimal n) = Some (false, n).
Proof.
  pose proof (magnitude_decimal n) as Hm.
  destruct (decimal_go_digits_only (N.to_nat (N.log2 n)) n "" I) as (c & s & Hs & Hc & _).
  fold (Js.decimal n) in Hs. rewrite Hs in *.
  unfold Js.parseInt.
  assert (Htrim : Js.trim_start (String c s) = String c s).
  { apply decimal_digit_cases in Hc.
    repeat (destruct Hc as [->|Hc]; [reflexivity|]). subst c. reflexivity. }
  rewrite Htrim. apply decimal_digit_cases in Hc.
  repeat (destruct Hc as [->|Hc]; [cbv beta iota zeta; by rewrite Hm|]).
  subst c. cbv beta iota zeta. by rewrite Hm.
Qed.

Lemma parseInt_negated_decimal (n : N) :
  Js.parseInt (String "-" (Js.decimal n)) = Some (true, n).
Proof.
  unfold Js.parseInt.
  change (Js.trim_start (String "-" (Js.decimal n))) with (String "-" (Js.decimal n)).
  cbv beta iota zeta. by rewrite magnitude_decimal.
Qed.

(** [parseInt] leaves an integer-valued Number unchanged. *)
Lemma parseInt_integer_id (n : Z) : Js.parseInt_integer n = n.
Proof.
  unfold Js.parseInt_integer, Js.toString.
  destruct (n <? 0)%Z eqn:Hneg.
  - apply Z.ltb_lt in Hneg. rewrite parseInt_negated_decimal. lia.
  - apply Z.ltb_ge in Hneg. rewrite parseInt_decimal. lia.
Qed.

(** ** Splitting at a separator *)

Lemma split_free sep s : Js.free_of sep s -> Js.split sep s = [s].
Proof.
  induction s as [|c s IH]; [reflexivity|]. intros [Hc Hs]. cbn [Js.split].
  rewrite bool_decide_eq_false_2 by exact Hc. by rewrite IH.
Qed.

Lemma split_app sep a b :
  Js.free_of sep a -> Js.split sep (a +:+ String sep b) = a :: Js.split sep b.
Proof.
  induction a as [|c a IH].
  - intros _. change ("" +:+ String sep b) with (String sep b). cbn [Js.split].
    by rewrite bool_decide_eq_true_2.
  - intros [Hc Ha]. change (String c a +:+ String sep b) with (String c (a +:+ String sep b)).
    cbn [Js.split]. rewrite bool_decide_eq_false_2 by exact Hc. by rewrite IH.
Qed.

Lemma digits_only_free s : Js.digits_only s -> Js.free_of "/" s.
Proof.
  induction s as [|c s IH]; [done|]. intros [Hc Hs]. split; [|by apply IH].
  apply decimal_digit_cases in Hc.
  repeat (destruct Hc as [->|Hc]; [discriminate|]). subst c. discriminate.
Qed.

Lemma decimal_digits_only n : Js.digits_only (Js.decimal n).
Proof.
  destruct (decimal_go_digits_only (N.to_nat (N.log2 n)) n "" I) as (c & s & Hs & Hc & Hrest).
  unfold Js.decimal. rewrite Hs. by split.
Qed.

(** The price written [n/d] is the quotient of the Numbers [n] and [d]. *)
Lemma price_decimal (n d : N) :
  Params.price (Js.decimal n +:+ "/" +:+ Js.decimal d) =
  PrimFloat.div (Js.number_of_N n) (Js.number_of_N d).
Proof.
  unfold Params.price.
  change ("/" +:+ Js.decimal d) with (String "/" (Js.decimal d)).
  rewrite split_app by apply digits_only_free, decimal_digits_only.
  rewrite split_free by apply digits_only_free, decimal_digits_only.
  cbn [lookup list_lookup]. unfold Js.parseInt_elem. cbn [default id].
  by rewrite !parseInt_decimal.
Qed.

(** ** The session *)

Example cookie_match_runs :
  Auth.cookie_match "CF_Authorization=eyJhbGciOi; Path=/; HttpOnly" = Some "eyJhbGciOi" /\
  Auth.cookie_match "lang=en, CF_Authorization=abc" = Some "abc" /\
  Auth.cookie_match "CF_Authorization=; Max-Age=0" = None /\
  Auth.cookie_match "CF_Authorization=; CF_Authorization=xyz;" = Some "xyz" /\
  Auth.cookie_match "session=1" = None.
Proof. repeat split. Qed.

(** The capture group [[^;]+] is never empty. *)
Lemma cookie_match_truthy s c :
  Auth.cookie_match s = Some c -> Js.truthy (Some c) = true.
Proof.
  induction s as [|a s IH]; cbn [Auth.cookie_match]; [discriminate|].
  destruct (Js.strip_prefix _ (String a s)) as [rest|]; [|exact IH].
  destruct (Auth.until_semicolon rest) as [|b captured]; [exact IH|].
  intros H; inversion H; subst. reflexivity.
Qed.

(** What a response does to the cookie field: it is overwritten by a
    capture, and left alone otherwise. *)
Lemma observe_cookie s h :
  Auth.cfAuthorizationCookie (Auth.observe s h) =
  match h with
  | Some cookieHeader =>
      match Auth.cookie_match cookieHeader with
      | Some captured => Some captured
      | None => Auth.cfAuthorizationCookie s
      end
  | None => Auth.cfAuthorizationCookie s
  end.
Proof.
  destruct h as [[|a h]|]; try reflexivity.
  unfold Auth.observe. destruct (Auth.cookie_match (String a h)); reflexivity.
Qed.

Lemma observe_credentials s h :
  Auth.clientId (Auth.observe s h) = Auth.clientId s /\
  Auth.clientSecret (Auth.observe s h) = Auth.clientSecret s.
Proof.
  destruct h as [[|a h]|]; try (split; reflexivity).
  unfold Auth.observe. destruct (Auth.cookie_match (String a h)); split; reflexivity.
Qed.

Lemma after_snoc s history e :
  Auth.after s (history ++ [e]) = Auth.step (Auth.after s history) e.
Proof. unfold Auth.after. by rewrite foldl_snoc. Qed.

Lemma after_credentials s history :
  Auth.clientId (Auth.after s history) = Auth.clientId s /\
  Auth.clientSecret (Auth.after s history) = Auth.clientSecret s.
Proof.
  induction history as [|e history IH] using rev_ind; [split; reflexivity|].
  rewrite after_snoc. destruct e as [|h]; [exact IH|].
  cbn [Auth.step]. destruct (observe_credentials (Auth.after s history) h) as [-> ->].
  exact IH.
Qed.

(** The cookie field is never cleared, and it never holds an empty string
    when it starts without one. *)
Lemma step_keeps_cookie s e :
  Js.truthy (Auth.cfAuthorizationCookie s) = true ->
  Js.truthy (Auth.cfAuthorizationCookie (Auth.step s e)) = true.
Proof.
  destruct e as [|h]; [trivial|]. cbn [Auth.step]. rewrite observe_cookie.
  destruct h as [h|]; [|trivial].
  destruct (Auth.cookie_match h) as [c|] eqn:Hc; [|trivial].
  intros _. by eapply cookie_match_truthy.
Qed.

Lemma after_keeps_cookie s history :
  Js.truthy (Auth.cfAuthorizationCookie s) = true ->
  Js.truthy (Auth.cfAuthorizationCookie (Auth.after s history)) = true.
Proof.
  intros Hs. induction history as [|e history IH] using rev_ind; [exact Hs|].
  rewrite after_snoc. by apply step_keeps_cookie.
Qed.

Lemma after_unestablished s history :
  Forall (fun e => Auth.establishes e = false) history ->
  Auth.cfAuthorizationCookie (Auth.after s history) = Auth.cfAuthorizationCookie s.
Proof.
  induction history as [|e history IH] using rev_ind; [reflexivity|].
  intros H. apply Forall_app in H as [Hh He]. inversion He as [|? ? Hest _]; subst.
  rewrite after_snoc. destruct e as [|h]; [by apply IH|].
  cbn [Auth.step]. rewrite observe_cookie.
  destruct h as [h|]; [|by apply IH].
  cbn [Auth.establishes] in Hest.
  destruct (Auth.cookie_match h) as [c|]; [|by apply IH].
  exfalso. case_bool_decide as Hd; [discriminate|]. apply Hd. eauto.
Qed.

(** The last establishing response of a history. *)
Lemma last_establishing history :
  Exists (fun e => Auth.establishes e = true) history ->
  exists pre h c post,
    history = pre ++ Auth.Response (Some h) :: post /\
    Auth.cookie_match h = Some c /\
    Forall (fun e => Auth.establishes e = false) post.
Proof.
  induction history as [|e history IH] using rev_ind; intros H.
  - inversion H.
  - destruct (Auth.establishes e) eqn:He.
    + destruct e as [|[h|]]; try discriminate.
      cbn [Auth.establishes] in He. case_bool_decide as Hd; [|discriminate].
      destruct Hd as [c Hc].
      exists history, h, c, []. repeat split; [assumption | constructor].
    + apply Exists_app in H as [H|H].
      * destruct (IH H) as (pre & h & c & post & -> & Hc & Hpost).
        exists pre, h, c, (post ++ [e]). split; [|split; [assumption|]].
        -- by rewrite <- app_assoc.
        -- apply Forall_app. split; [assumption | by constructor].
      * inversion H as [? ? He'|? ? He']; subst; [congruence | inversion He'].
Qed.

(** C3. On one adapter instance, whatever the interleaving of calls and
    responses: a call that prepares its headers before any response has
    carried a matching session cookie sends the client id and the client
    secret; a call that prepares them after such a response sends the single
    [Cookie] header, with the capture of the latest such response, and no
    client header; and once the cookie field holds a value, no later
    history clears it. *)
Theorem session_upgrade_is_permanent (id secret : string) (before : list Auth.event) :
  let s := Auth.after (Auth.new id secret) before in
  (Forall (fun e => Auth.establishes e = false) before ->
     Auth.getAuthHeaders s =
     [("CF-Access-Client-Id", id); ("CF-Access-Client-Secret", secret)]) /\
  (Exists (fun e => Auth.establishes e = true) before ->
     exists pre h c post,
       before = pre ++ Auth.Response (Some h) :: post /\
       Auth.cookie_match h = Some c /\
       Forall (fun e => Auth.establishes e = false) post /\
       c <> "" /\
       Auth.cfAuthorizationCookie s = Some c /\
       Auth.getAuthHeaders s = [("Cookie", "CF_Authorization=" +:+ c)]) /\
  (forall later,
     is_Some (Auth.cfAuthorizationCookie s) ->
     is_Some (Auth.cfAuthorizationCookie (Auth.after s later)) /\
     exists c, Auth.getAuthHeaders (Auth.after s later) =
               [("Cookie", "CF_Authorization=" +:+ c)]).
Proof.
  intros s. split; [|split].
  - intros H. unfold Auth.getAuthHeaders. subst s.
    rewrite (after_unestablished _ _ H).
    destruct (after_credentials (Auth.new id secret) before) as [-> ->].
    reflexivity.
  - intros H. destruct (last_establishing _ H) as (pre & h & c & post & -> & Hc & Hpost).
    exists pre, h, c, post.
    assert (Hs : Auth.cfAuthorizationCookie s = Some c).
    { subst s. unfold Auth.after. rewrite foldl_app. cbn [foldl Auth.step].
      fold (Auth.after (Auth.observe (foldl Auth.step (Auth.new id secret) pre) (Some h)) post).
      rewrite (after_unestablished _ _ Hpost), observe_cookie, Hc. reflexivity. }
    pose proof (cookie_match_truthy _ _ Hc) as Ht.
    repeat split; try assumption.
    + intros ->. discriminate.
    + unfold Auth.getAuthHeaders. rewrite Hs, Ht. reflexivity.
  - intros later [c Hc].
    assert (Ht : Js.truthy (Auth.cfAuthorizationCookie s) = true).
    { assert (Hinv : forall history,
                 Auth.cfAuthorizationCookie (Auth.after (Auth.new id secret) history) = None \/
                 Js.truthy (Auth.cfAuthorizationCookie
                              (Auth.after (Auth.new id secret) history)) = true).
      { induction history as [|e history IH] using rev_ind; [by left|].
        rewrite after_snoc. destruct IH as [IH|IH]; [|right; by apply step_keeps_cookie].
        destruct e as [|h]; [by left|]. cbn [Auth.step]. rewrite observe_cookie.
        destruct h as [h|]; [|by left].
        destruct (Auth.cookie_match h) as [c'|] eqn:Hc'; [|by left].
        right. by eapply cookie_match_truthy. }
      destruct (Hinv before) as [Hn|Hy]; [|exact Hy].
      fold s in Hn. congruence. }
    pose proof (after_keeps_cookie s later Ht) as Hl.
    destruct (Auth.cfAuthorizationCookie (Auth.after s later)) as [c'|] eqn:Hc';
      [|discriminate].
    split; [eauto|]. exists c'. unfold Auth.getAuthHeaders. rewrite Hc', Hl. reflexivity.
Qed.

(** Two histories: a call answered without cookie header; then a call
    answered with the session cookie, followed by a call answered without
    one. *)
Lemma session_upgrade_is_permanent_witness :
  Auth.getAuthHeaders (Auth.after (Auth.new "id" "secret") [Auth.Request; Auth.Response None]) =
    [("CF-Access-Client-Id", "id"); ("CF-Access-Client-Secret", "secret")] /\
  exists c,
    Auth.getAuthHeaders
      (Auth.after (Auth.new "id" "secret")
         [Auth.Request; Auth.Response (Some "CF_Authorization=eyJhbGciOi; Path=/; HttpOnly");
          Auth.Request; Auth.Response None]) =
    [("Cookie", "CF_Authorization=" +:+ c)].
Proof.
  split.
  - apply (session_upgrade_is_permanent "id" "secret" [Auth.Request; Auth.Response None]).
    repeat constructor.
  - destruct (session_upgrade_is_permanent "id" "secret"
                [Auth.Request; Auth.Response (Some "CF_Authorization=eyJhbGciOi; Path=/; HttpOnly");
                 Auth.Request; Auth.Response None]) as (_ & H & _).
    destruct H as (_ & _ & c & _ & _ & _ & _ & _ & _ & H).
    + right. left. vm_compute. reflexivity.
    + exists c. exact H.
Defined.

(** ** Datum fetch *)

(** C6. [getDatum] fails exactly when the answer carries no datum body (the
    answer is [null], has no [datum] member, or has an empty one), and the
    failure is the error whose message names the hash; otherwise it returns
    the body of the answer. *)
Theorem getDatum_not_found_iff_no_body (kupoUrl : string) (kupo : Kupo.Indexer)
    (datumHash : string) :
  let answer := Kupo.datums kupo (kupoUrl +:+ "/datums/" +:+ datumHash) in
  let carries body := answer = Some {| Kupo.Raw.datum := Some body |} /\ body <> "" in
  (forall body, carries body -> Kupo.getDatum kupoUrl kupo datumHash = Js.Ok body) /\
  (~ (exists body, carries body) <->
     Kupo.getDatum kupoUrl kupo datumHash =
     Js.Err (Js.Error ("No datum found for datum hash: " +:+ datumHash))) /\
  (~ (exists body, carries body) <-> ~ Js.is_ok (Kupo.getDatum kupoUrl kupo datumHash)).
Proof.
  intros answer carries. unfold Kupo.getDatum. fold answer.
  assert (Hcases : (exists body, carries body) \/ ~ (exists body, carries body)).
  { destruct answer as [[[[|a body]|]]|].
    - right. intros (b & Hb & Hne). inversion Hb; subst. by apply Hne.
    - left. exists (String a body). split; [reflexivity | discriminate].
    - right. intros (b & Hb & _). discriminate.
    - right. intros (b & Hb & _). discriminate. }
  split; [|split].
  - intros body [-> Hne]. destruct body; [by destruct Hne | reflexivity].
  - split.
    + intros Hno. destruct answer as [[[[|a body]|]]|]; try reflexivity.
      exfalso. apply Hno. exists (String a body). split; [reflexivity | discriminate].
    + intros Herr (body & -> & Hne). destruct body; [by apply Hne | discriminate].
  - split.
    + intros Hno Hok. apply Hno. clear Hno Hcases.
      destruct answer as [[[[|a body]|]]|]; simpl in Hok; try tauto.
      exists (String a body). split; [reflexivity | discriminate].
    + intros Hnok (body & -> & Hne). apply Hnok.
      destruct body; [by destruct Hne | exact I].
Qed.

(** A Kupo instance in which one datum is known. *)
Lemma getDatum_not_found_iff_no_body_witness :
  Kupo.getDatum "http://localhost:1442"
    {| Kupo.matches := fun _ => [];
       Kupo.datums := fun url =>
         if bool_decide (url = "http://localhost:1442/datums/ab12")
         then Some {| Kupo.Raw.datum := Some "d87980" |} else None;
       Kupo.scripts := fun _ => None |}
    "ab12" = Js.Ok "d87980".
Proof.
  apply getDatum_not_found_iff_no_body. split; [reflexivity | discriminate].
Defined.

(** ** Transaction submission *)

(** C7. [submitTx] resolves with the identifier of the transaction when the
    answer carries a result holding a transaction; when the answer carries
    no result it rejects with the [error] member of the answer, as
    received. *)
Theorem submitTx_id_or_error_payload (answer : Ogmios.SubmitAnswer) :
  (forall tx,
     Ogmios.result answer = Some {| Ogmios.transaction := Some tx |} ->
     Ogmios.submitTx (Ogmios.Json answer) = Js.Ok (Ogmios.Transaction.id tx)) /\
  (Ogmios.result answer = None ->
   Ogmios.submitTx (Ogmios.Json answer) = Js.Err (Ogmios.Payload (Ogmios.error answer))).
Proof.
  unfold Ogmios.submitTx. split.
  - intros tx ->. reflexivity.
  - intros ->. reflexivity.
Qed.

(** An accepted and a refused submission. *)
Lemma submitTx_id_or_error_payload_witness :
  Ogmios.submitTx
    (Ogmios.Json {| Ogmios.result :=
                      Some {| Ogmios.transaction := Some {| Ogmios.Transaction.id := "4f53" |} |};
                    Ogmios.error := None |}) = Js.Ok "4f53" /\
  Ogmios.submitTx
    (Ogmios.Json {| Ogmios.result := None;
                    Ogmios.error := Some {| Ogmios.code := 3005%Z;
                                            Ogmios.message := "Failed to submit" |} |}) =
  Js.Err (Ogmios.Payload (Some {| Ogmios.code := 3005%Z;
                                  Ogmios.message := "Failed to submit" |})).
Proof.
  split.
  - apply (proj1 (submitTx_id_or_error_payload
             {| Ogmios.result :=
                  Some {| Ogmios.transaction := Some {| Ogmios.Transaction.id := "4f53" |} |};
                Ogmios.error := None |}) {| Ogmios.Transaction.id := "4f53" |}).
    reflexivity.
  - apply (proj2 (submitTx_id_or_error_payload
             {| Ogmios.result := None;
                Ogmios.error := Some {| Ogmios.code := 3005%Z;
                                        Ogmios.message := "Failed to submit" |} |})).
    reflexivity.
Defined.

(** ** Single-holder fetch *)

(** C9. When the exact-unit query matches nothing, [getUtxoByUnit] does not
    fail: it resolves with [undefined], the first element of an empty
    array. *)
Theorem getUtxoByUnit_no_match_is_undefined (kupoUrl : string)
    (fromUnit : string -> string * option string)
    (reencode : string -> Js.result Js.error string)
    (kupo : Kupo.Indexer) (unit : string) :
  Kupo.matches kupo (Kupo.unitUrl kupoUrl fromUnit unit) = [] ->
  Kupo.getUtxoByUnit kupoUrl fromUnit reencode kupo unit = Js.Ok None.
Proof.
  intros H. unfold Kupo.getUtxoByUnit. rewrite H. reflexivity.
Qed.

(** A Kupo instance that matches nothing. *)
Lemma getUtxoByUnit_no_match_is_undefined_witness :
  Kupo.getUtxoByUnit "http://localhost:1442"
    (fun unit => (substring 0 56 unit, Some (substring 56 (String.length unit - 56) unit)))
    (fun script => Js.Ok script)
    {| Kupo.matches := fun _ => []; Kupo.datums := fun _ => None; Kupo.scripts := fun _ => None |}
    "533bb94a8850ee3ccbe483106489399112b74c905342cb1792a797a0494e4459" = Js.Ok None.
Proof. apply getUtxoByUnit_no_match_is_undefined. reflexivity. Defined.

(** ** Delegation *)

(** C5. An answer whose result is the empty object yields the delegation
    record with a null pool and zero rewards, and a single summary is read
    out; but an answer without a result, for which the handler substitutes
    the summary [{}], is rejected with a [TypeError]: the optional chain
    [delegation?.delegate.id] guards [delegation] only. *)
Theorem getDelegation_without_result_throws :
  Ogmios.getDelegation (Ogmios.Json {| Ogmios.summaries := Some [] |}) =
    Js.Ok {| Ogmios.Delegation.poolId := None; Ogmios.Delegation.rewards := 0 |} /\
  Ogmios.getDelegation
    (Ogmios.Json {| Ogmios.summaries :=
       Some [("e07a", {| Ogmios.delegate := Some {| Ogmios.id := "pool1abc" |};
                         Ogmios.rewards :=
                           Some {| Ogmios.ada := {| Ogmios.lovelace := 2500000 |} |} |})] |}) =
    Js.Ok {| Ogmios.Delegation.poolId := Some "pool1abc";
             Ogmios.Delegation.rewards := 2500000 |} /\
  Ogmios.getDelegation (Ogmios.Json {| Ogmios.summaries := None |}) =
    Js.Err (Js.TypeError "id").
Proof. repeat split. Qed.

(** ** Execution prices *)

(** C8. A price written as numerator, ["/"], denominator is parsed to the
    quotient of the two numbers, as binary64 Numbers: the memory price
    ["10/1"] to [10], the step price ["2/1"] to [2], and ["577/10000"] to
    [0.0577], which is the binary64 number [8315446351976884 * 2^-57], less
    than half a unit in the last place away from 577/10000. *)
Theorem execution_prices_are_ratios :
  (forall n d : N,
     Params.price (Js.decimal n +:+ "/" +:+ Js.decimal d) =
     PrimFloat.div (Js.number_of_N n) (Js.number_of_N d)) /\
  Params.priceMem {| Params.memory := "10/1"; Params.cpu := "2/1" |} = 10%float /\
  Params.priceStep {| Params.memory := "10/1"; Params.cpu := "2/1" |} = 2%float /\
  Params.price "577/10000" = 0.0577%float /\
  Prim2SF (Params.price "577/10000") = S754_finite false 8315446351976884 (-57) /\
  (2 * Z.abs (10000 * 8315446351976884 - 577 * 2 ^ 57) < 10000)%Z.
Proof.
  split; [exact price_decimal|].
  repeat split; vm_compute; reflexivity.
Qed.

(** ** Normalization of raw records *)

Section Normalization.

Variable kupoUrl : string.
Variable reencode : string -> Js.result Js.error string.
Variable kupo : Kupo.Indexer.

Abbreviation normalize := (Kupo.kupmiosUtxoToUtxo kupoUrl reencode kupo).
Abbreviation resolveDatum := (Kupo.resolveDatum kupoUrl kupo).
Abbreviation resolveScript := (Kupo.resolveScript kupoUrl reencode kupo).

(** A record is normalized exactly when its datum and its script are
    resolved, and the UTxO is then assembled from the record and the two. *)
Lemma normalize_ok utxo u :
  normalize utxo = Js.Ok u <->
  exists body ref,
    resolveDatum utxo = Js.Ok body /\ resolveScript utxo = Js.Ok ref /\
    u = {| Kupo.txHash := Kupo.Raw.transaction_id utxo;
           Kupo.outputIndex := Kupo.Raw.output_index utxo;
           Kupo.address := Kupo.Raw.address utxo;
           Kupo.assets := Kupo.toAssets (Kupo.Raw.value utxo);
           Kupo.datumHash := if Js.strict_eq (Kupo.Raw.datum_type utxo) "hash"
                             then Kupo.Raw.datum_hash utxo else None;
           Kupo.datum := body;
           Kupo.scriptRef := ref |}.
Proof.
  unfold Kupo.kupmiosUtxoToUtxo. rewrite bind_ok, parseInt_integer_id. split.
  - intros (body & Hd & H). apply bind_ok in H as (ref & Hs & H).
    inversion H. eauto.
  - intros (body & ref & Hd & Hs & ->). exists body. split; [assumption|].
    rewrite Hs. reflexivity.
Qed.

(** A failed datum fetch is the failure of the normalization. *)
Lemma normalize_datum_err utxo e :
  resolveDatum utxo = Js.Err e -> normalize utxo = Js.Err e.
Proof. intros H. unfold Kupo.kupmiosUtxoToUtxo. rewrite H. reflexivity. Qed.

Lemma normalize_outref utxo u :
  normalize utxo = Js.Ok u ->
  Kupo.txHash u = Kupo.Raw.transaction_id utxo /\
  Kupo.outputIndex u = Kupo.Raw.output_index utxo.
Proof. intros H. apply normalize_ok in H as (? & ? & _ & _ & ->). by split. Qed.

Lemma strict_eq_true v lit : Js.strict_eq v lit = true <-> v = Some lit.
Proof.
  destruct v as [s|]; simpl; [|split; discriminate].
  rewrite bool_decide_eq_true. split; intros H; congruence.
Qed.

Lemma strict_eq_false v lit : Js.strict_eq v lit = false <-> v <> Some lit.
Proof.
  rewrite <- strict_eq_true. destruct (Js.strict_eq v lit); split; congruence.
Qed.

(** The datum of a record is resolved unless it is an inline datum whose
    body Kupo does not have. *)
Lemma resolveDatum_inline utxo :
  Kupo.Raw.datum_type utxo = Some "inline" ->
  resolveDatum utxo =
  Js.bind (Kupo.getDatum kupoUrl kupo (Js.template (Kupo.Raw.datum_hash utxo)))
          (fun body => Js.Ok (Some body)).
Proof.
  intros H. unfold Kupo.resolveDatum. apply strict_eq_true in H. by rewrite H.
Qed.

Lemma resolveDatum_other utxo :
  Kupo.Raw.datum_type utxo <> Some "inline" -> resolveDatum utxo = Js.Ok None.
Proof.
  intros H. unfold Kupo.resolveDatum. apply strict_eq_false in H. by rewrite H.
Qed.

Lemma getDatum_truthy datumHash body :
  Kupo.getDatum kupoUrl kupo datumHash = Js.Ok body -> body <> "".
Proof.
  unfold Kupo.getDatum.
  destruct (Kupo.datums kupo _) as [[[[|a b]|]]|]; try discriminate.
  intros [= <-]. discriminate.
Qed.

End Normalization.

(** ** Datum fields of a normalized record *)

(** C4. Every UTxO that normalization produces has at most one of its two
    datum fields populated: a record of datum type ["inline"] gives the
    fetched, non-empty datum body and a null datum hash; a record of datum
    type ["hash"] gives the datum hash of the record and a null body; any
    other record gives two nulls.  A UTxO is produced whenever the datum
    and the script of the record are resolved; when the datum type is
    ["inline"] and Kupo has no body for the hash, normalization fails with
    the error of [getDatum]. *)
Theorem datum_fields_are_exclusive (kupoUrl : string)
    (reencode : string -> Js.result Js.error string) (kupo : Kupo.Indexer)
    (utxo : Kupo.Raw.Match) :
  (forall u,
     Kupo.kupmiosUtxoToUtxo kupoUrl reencode kupo utxo = Js.Ok u ->
     (Kupo.Raw.datum_type utxo = Some "inline" ->
        Kupo.datumHash u = None /\
        exists body, body <> "" /\ Kupo.datum u = Some body /\
          Kupo.getDatum kupoUrl kupo (Js.template (Kupo.Raw.datum_hash utxo)) = Js.Ok body) /\
     (Kupo.Raw.datum_type utxo = Some "hash" ->
        Kupo.datumHash u = Kupo.Raw.datum_hash utxo /\ Kupo.datum u = None) /\
     (Kupo.Raw.datum_type utxo <> Some "inline" ->
      Kupo.Raw.datum_type utxo <> Some "hash" ->
        Kupo.datumHash u = None /\ Kupo.datum u = None) /\
     (Kupo.datumHash u = None \/ Kupo.datum u = None)) /\
  (forall e,
     Kupo.Raw.datum_type utxo = Some "inline" ->
     Kupo.getDatum kupoUrl kupo (Js.template (Kupo.Raw.datum_hash utxo)) = Js.Err e ->
     Kupo.kupmiosUtxoToUtxo kupoUrl reencode kupo utxo = Js.Err e) /\
  (Js.is_ok (Kupo.resolveDatum kupoUrl kupo utxo) ->
   Js.is_ok (Kupo.resolveScript kupoUrl reencode kupo utxo) ->
   Js.is_ok (Kupo.kupmiosUtxoToUtxo kupoUrl reencode kupo utxo)).
Proof.
  split; [|split].
  - intros u Hu. apply normalize_ok in Hu as (body & ref & Hd & _ & ->).
    cbn [Kupo.datumHash Kupo.datum].
    assert (Hinline : Kupo.Raw.datum_type utxo = Some "inline" ->
              Js.strict_eq (Kupo.Raw.datum_type utxo) "hash" = false /\
              exists b, b <> "" /\ body = Some b /\
                Kupo.getDatum kupoUrl kupo (Js.template (Kupo.Raw.datum_hash utxo)) = Js.Ok b).
    { intros Hi. split; [apply strict_eq_false; congruence|].
      rewrite (resolveDatum_inline _ _ _ Hi) in Hd.
      apply bind_ok in Hd as (b & Hb & [= <-]).
      exists b. split; [by eapply getDatum_truthy | by split]. }
    assert (Hother : Kupo.Raw.datum_type utxo <> Some "inline" -> body = None).
    { intros Hn. rewrite (resolveDatum_other _ _ _ Hn) in Hd. congruence. }
    repeat split.
    + apply Hinline in H as [-> _]. reflexivity.
    + apply Hinline in H as [_ H]. exact H.
    + apply strict_eq_true in H. by rewrite H.
    + apply Hother. congruence.
    + apply strict_eq_false in H0. by rewrite H0.
    + by apply Hother.
    + destruct (Js.strict_eq (Kupo.Raw.datum_type utxo) "hash") eqn:Hh; [|by left].
      right. apply Hother. apply strict_eq_true in Hh. congruence.
  - intros e Hi He. apply normalize_datum_err.
    rewrite (resolveDatum_inline _ _ _ Hi), He. reflexivity.
  - intros Hd Hs. apply is_ok_eq in Hd as [body Hd]. apply is_ok_eq in Hs as [ref Hs].
    apply is_ok_eq. eexists. apply normalize_ok. eauto.
Qed.

(** A record with an inline datum that Kupo knows. *)
Lemma datum_fields_are_exclusive_witness :
  exists u,
    Kupo.kupmiosUtxoToUtxo Example.kupoUrl Example.reencode Example.kupo Example.a1_2 = Js.Ok u /\
    Kupo.datumHash u = None /\
    exists body, body <> "" /\ Kupo.datum u = Some body /\
      Kupo.getDatum Example.kupoUrl Example.kupo
        (Js.template (Kupo.Raw.datum_hash Example.a1_2)) = Js.Ok body.
Proof.
  eexists. split; [vm_compute; reflexivity|].
  eapply (proj1 (datum_fields_are_exclusive Example.kupoUrl Example.reencode Example.kupo
                   Example.a1_2)).
  - vm_compute. reflexivity.
  - reflexivity.
Defined.

(** A record with an inline datum whose body Kupo does not have is not
    normalized at all. *)
Lemma inline_datum_without_body_is_not_normalized :
  Kupo.Raw.datum_type Example.b2_1 = Some "inline" /\
  Kupo.kupmiosUtxoToUtxo Example.kupoUrl Example.reencode Example.kupo Example.b2_1 =
    Js.Err (Js.Error "No datum found for datum hash: d9").
Proof. split; vm_compute; reflexivity. Qed.

(** ** Scripts in an unknown language *)

(** C10. For a record with a script hash whose script Kupo returns with a
    language other than ["native"], ["plutus:v1"] and ["plutus:v2"], the
    script is resolved to [undefined] without failing.  The script is
    fetched once the datum of the record is resolved, and the normalization
    then does not fail: it produces a UTxO with an undefined script
    reference.  (When the datum is not resolved the script is not fetched
    at all, and the normalization fails with the error of the datum
    fetch.) *)
Theorem unknown_script_language_is_omitted (kupoUrl : string)
    (reencode : string -> Js.result Js.error string) (kupo : Kupo.Indexer)
    (utxo : Kupo.Raw.Match) (s : Kupo.Raw.Script) :
  Js.truthy (Kupo.Raw.script_hash utxo) = true ->
  Kupo.scripts kupo (kupoUrl +:+ "/scripts/" +:+ Js.template (Kupo.Raw.script_hash utxo)) = Some s ->
  Kupo.Raw.language s <> "native" ->
  Kupo.Raw.language s <> "plutus:v1" ->
  Kupo.Raw.language s <> "plutus:v2" ->
  Kupo.resolveScript kupoUrl reencode kupo utxo = Js.Ok Kupo.ScriptUndefined /\
  (forall body,
     Kupo.resolveDatum kupoUrl kupo utxo = Js.Ok body ->
     exists u, Kupo.kupmiosUtxoToUtxo kupoUrl reencode kupo utxo = Js.Ok u /\
               Kupo.scriptRef u = Kupo.ScriptUndefined) /\
  (forall e,
     Kupo.resolveDatum kupoUrl kupo utxo = Js.Err e ->
     Kupo.kupmiosUtxoToUtxo kupoUrl reencode kupo utxo = Js.Err e) /\
  (forall u,
     Kupo.kupmiosUtxoToUtxo kupoUrl reencode kupo utxo = Js.Ok u ->
     Kupo.scriptRef u = Kupo.ScriptUndefined).
Proof.
  intros Hhash Hs Hn H1 H2.
  assert (Hr : Kupo.resolveScript kupoUrl reencode kupo utxo = Js.Ok Kupo.ScriptUndefined).
  { unfold Kupo.resolveScript, Kupo.fetchScript. rewrite Hhash, Hs.
    repeat case_bool_decide; try contradiction. reflexivity. }
  split; [exact Hr|]. split; [|split].
  - intros body Hd. eexists. split; [apply normalize_ok; eauto | reflexivity].
  - intros e He. by apply normalize_datum_err.
  - intros u Hu. apply normalize_ok in Hu as (body & ref & _ & Href & ->).
    cbn [Kupo.scriptRef]. congruence.
Qed.

(** A record that carries a [plutus:v3] script and no datum. *)
Lemma unknown_script_language_is_omitted_witness :
  exists u,
    Kupo.kupmiosUtxoToUtxo Example.kupoUrl Example.reencode Example.kupo Example.c3_0 = Js.Ok u /\
    Kupo.scriptRef u = Kupo.ScriptUndefined.
Proof.
  eapply (unknown_script_language_is_omitted Example.kupoUrl Example.reencode Example.kupo
            Example.c3_0 {| Kupo.Raw.script := "4e4d01000033222220051200120011";
                            Kupo.Raw.language := "plutus:v3" |});
    try discriminate; vm_compute; reflexivity.
Defined.

(** ** Single-holder fetch, continued *)

(** C2. When the exact-unit query yields exactly one record and this record
    is normalized, [getUtxoByUnit] returns the normalized record; when the
    query yields two or more records and all of them are normalized, it
    fails with the single-holder error; when a record is not normalized, it
    fails with the error of the normalization. *)
Theorem getUtxoByUnit_single_holder (kupoUrl : string)
    (fromUnit : string -> string * option string)
    (reencode : string -> Js.result Js.error string)
    (kupo : Kupo.Indexer) (unit : string) :
  let records := Kupo.matches kupo (Kupo.unitUrl kupoUrl fromUnit unit) in
  (forall record u,
     records = [record] ->
     Kupo.kupmiosUtxoToUtxo kupoUrl reencode kupo record = Js.Ok u ->
     Kupo.getUtxoByUnit kupoUrl fromUnit reencode kupo unit = Js.Ok (Some u)) /\
  ((2 <= length records)%nat ->
   Forall (fun record => Js.is_ok (Kupo.kupmiosUtxoToUtxo kupoUrl reencode kupo record)) records ->
   Kupo.getUtxoByUnit kupoUrl fromUnit reencode kupo unit =
   Js.Err (Js.Error "Unit needs to be an NFT or only held by one address.")) /\
  (forall e,
     Kupo.kupmiosUtxosToUtxos kupoUrl reencode kupo records = Js.Err e ->
     Kupo.getUtxoByUnit kupoUrl fromUnit reencode kupo unit = Js.Err e).
Proof.
  intros records. unfold Kupo.getUtxoByUnit. fold records. split; [|split].
  - intros record u -> Hu. unfold Kupo.kupmiosUtxosToUtxos. simpl. rewrite Hu. reflexivity.
  - intros Hlen Hall.
    destruct (promise_all_total (Kupo.kupmiosUtxoToUtxo kupoUrl reencode kupo) records)
      as [us Hus].
    { intros x Hx. by eapply (proj1 (Forall_forall _ _) Hall). }
    unfold Kupo.kupmiosUtxosToUtxos. rewrite Hus. simpl.
    apply promise_all_length in Hus. rewrite Hus.
    destruct (1 <? length records)%nat eqn:Hlt; [reflexivity|].
    apply Nat.ltb_ge in Hlt. lia.
  - intros e ->. reflexivity.
Qed.

(** The token held by one output is fetched; the policy held by two outputs
    is refused. *)
Lemma getUtxoByUnit_single_holder_witness :
  (exists u,
     Kupo.kupmiosUtxoToUtxo Example.kupoUrl Example.reencode Example.kupo Example.a1_0 = Js.Ok u /\
     Kupo.getUtxoByUnit Example.kupoUrl Example.fromUnit Example.reencode Example.kupo
       (Example.policy +:+ "494e4459") = Js.Ok (Some u)) /\
  Kupo.getUtxoByUnit Example.kupoUrl Example.fromUnit Example.reencode Example.kupo
    Example.policy = Js.Err (Js.Error "Unit needs to be an NFT or only held by one address.").
Proof.
  split.
  - eexists. split; [vm_compute; reflexivity|].
    eapply (proj1 (getUtxoByUnit_single_holder Example.kupoUrl Example.fromUnit
                     Example.reencode Example.kupo (Example.policy +:+ "494e4459"))).
    + vm_compute. reflexivity.
    + vm_compute. reflexivity.
  - apply (proj1 (proj2 (getUtxoByUnit_single_holder Example.kupoUrl Example.fromUnit
                           Example.reencode Example.kupo Example.policy))).
    + vm_compute. lia.
    + vm_compute. repeat constructor.
Defined.

(** The exact-unit query yields exactly one record, whose inline datum Kupo
    does not have: the call fails.  It also fails with the error of the
    datum fetch, not with the single-holder error, when one of two records
    is such a record. *)
Lemma getUtxoByUnit_single_record_can_fail :
  Kupo.matches Example.kupo
    (Kupo.unitUrl Example.kupoUrl Example.fromUnit (Example.policy +:+ "6e6674")) =
    [Example.b2_1] /\
  Kupo.getUtxoByUnit Example.kupoUrl Example.fromUnit Example.reencode Example.kupo
    (Example.policy +:+ "6e6674") =
    Js.Err (Js.Error "No datum found for datum hash: d9") /\
  length (Kupo.matches Example.kupo
            (Kupo.unitUrl Example.kupoUrl Example.fromUnit (Example.policy +:+ "00"))) = 2%nat /\
  Kupo.getUtxoByUnit Example.kupoUrl Example.fromUnit Example.reencode Example.kupo
    (Example.policy +:+ "00") =
    Js.Err (Js.Error "No datum found for datum hash: d9").
Proof. repeat split; vm_compute; reflexivity. Qed.

(** ** Fetch by output references *)

Lemma unique_go_spec (seen xs : list string) :
  NoDup seen ->
  let r := foldl (fun (seen : list string) x =>
                    if bool_decide (x ∈ seen) then seen else seen ++ [x]) seen xs in
  NoDup r /\ forall x, x ∈ r <-> x ∈ seen \/ x ∈ xs.
Proof.
  revert seen. induction xs as [|y xs IH]; intros seen Hseen; cbn [foldl].
  - split; [assumption|]. intros x. rewrite elem_of_nil. tauto.
  - case_bool_decide as Hy.
    + destruct (IH seen Hseen) as [Hnd Hin]. split; [assumption|].
      intros x. rewrite Hin, elem_of_cons. split; [tauto|].
      intros [?|[->|?]]; tauto.
    + destruct (IH (seen ++ [y])) as [Hnd Hin].
      { apply NoDup_app. repeat split; [assumption| |apply NoDup_singleton].
        intros x Hx. rewrite list_elem_of_singleton. by intros ->. }
      split; [assumption|].
      intros x. rewrite Hin, elem_of_app, list_elem_of_singleton, elem_of_cons. tauto.
Qed.

(** [[...new Set(xs)]] has the elements of [xs], each once. *)
Lemma unique_spec (xs : list string) :
  NoDup (Kupo.unique xs) /\ forall x, x ∈ Kupo.unique xs <-> x ∈ xs.
Proof.
  destruct (unique_go_spec [] xs (NoDup_nil_2)) as [Hnd Hin].
  split; [exact Hnd|]. intros x. unfold Kupo.unique. rewrite Hin, elem_of_nil. tauto.
Qed.

(** [reduce((acc, utxos) => acc.concat(utxos), [])] flattens. *)
Lemma reduce_concat {A} (acc : list A) (ls : list (list A)) :
  foldl (fun acc l => acc ++ l) acc ls = acc ++ concat ls.
Proof.
  revert acc. induction ls as [|l ls IH]; intros acc; cbn [foldl concat].
  - by rewrite app_nil_r.
  - by rewrite IH, app_assoc.
Qed.

Lemma requested_spec outRefs u :
  Kupo.requested outRefs u = true <->
  exists outRef, outRef ∈ outRefs /\
    Kupo.txHash u = Kupo.OutRef.txHash outRef /\
    Kupo.outputIndex u = Kupo.OutRef.outputIndex outRef.
Proof.
  unfold Kupo.requested. rewrite existsb_exists. split.
  - intros (o & Ho & H). apply andb_true_iff in H as [H1 H2].
    apply bool_decide_eq_true in H1, H2. exists o. by rewrite list_elem_of_In.
  - intros (o & Ho & H1 & H2). exists o. rewrite <- list_elem_of_In. split; [assumption|].
    apply andb_true_iff. by rewrite !bool_decide_eq_true.
Qed.

Lemma promise_all_elem {E A B} (f : A -> Js.result E B) xs ys :
  Js.promise_all f xs = Js.Ok ys ->
  forall y, y ∈ ys <-> exists x, x ∈ xs /\ f x = Js.Ok y.
Proof.
  intros H. apply promise_all_ok in H.
  induction H as [|x y xs ys Hxy _ IH]; intros z.
  - rewrite elem_of_nil. split; [tauto|]. intros (x & Hx & _). by apply elem_of_nil in Hx.
  - rewrite elem_of_cons, IH. split.
    + intros [->|(x' & Hx' & Hz)].
      * exists x. split; [by left | assumption].
      * exists x'. split; [by right | assumption].
    + intros (x' & Hx' & Hz). apply elem_of_cons in Hx' as [->|Hx'].
      * left. congruence.
      * right. eauto.
Qed.

Lemma NoDup_fmap_filter {A B} (f : A -> B) (P : A -> Prop) `{forall x, Decision (P x)}
    (l : list A) :
  NoDup (f <$> l) -> NoDup (f <$> filter P l).
Proof.
  induction l as [|x l IH]; [done|]. rewrite filter_cons, fmap_cons.
  intros Hnd. apply NoDup_cons in Hnd as [Hx Hl].
  destruct (decide (P x)); [|by apply IH].
  rewrite fmap_cons. apply NoDup_cons. split; [|by apply IH].
  rewrite list_elem_of_fmap in *. intros (y & Hy & Hin). apply Hx.
  exists y. split; [assumption|]. apply list_elem_of_filter in Hin. tauto.
Qed.

Section ByOutRef.

Variable kupoUrl : string.
Variable reencode : string -> Js.result Js.error string.
Variable kupo : Kupo.Indexer.

Abbreviation outputsOf := (Kupo.outputsOf kupoUrl kupo).
Abbreviation ref := Kupo.ref.
Abbreviation rawRef := Kupo.rawRef.
Abbreviation normalize := (Kupo.kupmiosUtxoToUtxo kupoUrl reencode kupo).
Abbreviation fetch :=
  (fun txHash => Kupo.kupmiosUtxosToUtxos kupoUrl reencode kupo (outputsOf txHash)).

(** The candidates are the normalized outputs of the queried transactions. *)
Lemma candidates_elem hashes utxos :
  Js.promise_all fetch hashes = Js.Ok utxos ->
  forall u, u ∈ concat utxos <->
            exists h r, h ∈ hashes /\ r ∈ outputsOf h /\ normalize r = Js.Ok u.
Proof.
  revert utxos. induction hashes as [|h hashes IH]; intros utxos; cbn [Js.promise_all].
  - intros [= <-] u. cbn [concat]. rewrite elem_of_nil. split; [tauto|].
    intros (h & r & Hh & _). by apply elem_of_nil in Hh.
  - intros H. apply bind_ok in H as (us & Hus & H).
    apply bind_ok in H as (utxos' & Hrest & [= <-]).
    intros u. cbn [concat]. rewrite elem_of_app, (IH _ Hrest).
    rewrite (promise_all_elem _ _ _ Hus). split.
    + intros [(r & Hr & Hu)|(h' & r & Hh' & Hr & Hu)].
      * exists h, r. split; [by left | by split].
      * exists h', r. split; [by right | by split].
    + intros (h' & r & Hh' & Hr & Hu). apply elem_of_cons in Hh' as [->|Hh'].
      * left. eauto.
      * right. eauto.
Qed.

Lemma normalized_refs records us :
  Js.promise_all normalize records = Js.Ok us -> ref <$> us = rawRef <$> records.
Proof.
  intros H. apply promise_all_ok in H.
  induction H as [|r u records us Hru _ IH]; [reflexivity|].
  rewrite !fmap_cons, IH. f_equal.
  apply normalize_outref in Hru as [H1 H2]. unfold Kupo.ref, Kupo.rawRef. by rewrite H1, H2.
Qed.

(** When Kupo answers the query for a transaction with outputs of that
    transaction, each of them once, no output occurs twice among the
    candidates of distinct transactions. *)
Lemma candidates_NoDup hashes utxos :
  NoDup hashes ->
  (forall h r, h ∈ hashes -> r ∈ outputsOf h -> Kupo.Raw.transaction_id r = h) ->
  (forall h, h ∈ hashes -> NoDup (Kupo.Raw.output_index <$> outputsOf h)) ->
  Js.promise_all fetch hashes = Js.Ok utxos ->
  NoDup (ref <$> concat utxos).
Proof.
  revert utxos. induction hashes as [|h hashes IH];
    intros utxos Hnd Hfaithful Honce; cbn [Js.promise_all].
  - intros [= <-]. constructor.
  - intros H. apply bind_ok in H as (us & Hus & H).
    apply bind_ok in H as (utxos' & Hrest & [= <-]).
    apply NoDup_cons in Hnd as [Hh Hnd].
    cbn [concat]. rewrite fmap_app. apply NoDup_app. split; [|split].
    + rewrite (normalized_refs _ _ Hus).
      apply (NoDup_fmap_1 snd). rewrite <- list_fmap_compose.
      apply (Honce h). by left.
    + intros x Hx Hx'.
      rewrite (normalized_refs _ _ Hus) in Hx.
      apply list_elem_of_fmap in Hx as (r & -> & Hr).
      apply list_elem_of_fmap in Hx' as (u & Hu & Hin).
      apply (candidates_elem _ _ Hrest) in Hin as (h' & r' & Hh' & Hr' & Hn).
      apply normalize_outref in Hn as [Hn _].
      assert (h = h'); [|by subst].
      rewrite <- (Hfaithful h r) by (by left || assumption).
      rewrite <- (Hfaithful h' r') by (by right || assumption).
      unfold Kupo.rawRef, Kupo.ref in Hu. congruence.
    + apply IH; [assumption| |intros; apply Honce; by right|assumption].
      intros h' r' Hh'. apply Hfaithful. by right.
Qed.

End ByOutRef.

(** ** Fetch by output references: the result *)

(** C1. Let Kupo answer the query for each requested transaction with
    outputs of that transaction, each of them once.  When every record of
    these answers is normalized, [getUtxosByOutRef] returns the normalized
    unspent outputs whose (transaction hash, output index) pair occurs
    among the output references, no output twice and no other output; the
    transactions queried are the requested ones, each once.  When some
    record of these answers is not normalized, requested or not, the call
    fails. *)
Theorem getUtxosByOutRef_exact (kupoUrl : string)
    (reencode : string -> Js.result Js.error string) (kupo : Kupo.Indexer)
    (outRefs : list Kupo.OutRef.t) :
  let hashes := Kupo.OutRef.txHash <$> outRefs in
  let outputsOf := Kupo.outputsOf kupoUrl kupo in
  let normalize := Kupo.kupmiosUtxoToUtxo kupoUrl reencode kupo in
  (Forall (fun h => Forall (fun r => Kupo.Raw.transaction_id r = h) (outputsOf h)) hashes ->
   Forall (fun h => NoDup (Kupo.Raw.output_index <$> outputsOf h)) hashes ->
   Forall (fun h => Forall (fun r => Js.is_ok (normalize r)) (outputsOf h)) hashes ->
   exists utxos,
     Kupo.getUtxosByOutRef kupoUrl reencode kupo outRefs = Js.Ok utxos /\
     NoDup (Kupo.ref <$> utxos) /\
     (forall u,
        u ∈ utxos <->
        exists r, r ∈ outputsOf (Kupo.Raw.transaction_id r) /\
                  Kupo.rawRef r ∈ Kupo.outRefPair <$> outRefs /\
                  normalize r = Js.Ok u) /\
     NoDup (Kupo.unique hashes) /\
     (forall h, h ∈ Kupo.unique hashes <-> h ∈ hashes)) /\
  (Exists (fun h => Exists (fun r => ~ Js.is_ok (normalize r)) (outputsOf h)) hashes ->
   ~ Js.is_ok (Kupo.getUtxosByOutRef kupoUrl reencode kupo outRefs)).
Proof.
  intros hashes outputsOf normalize.
  destruct (unique_spec hashes) as [Hnd Hsame].
  split.
  - intros Hfaithful Honce Hnormal.
    rewrite Forall_forall in Hfaithful, Honce, Hnormal.
    destruct (promise_all_total
                (fun h => Kupo.kupmiosUtxosToUtxos kupoUrl reencode kupo (outputsOf h))
                (Kupo.unique hashes)) as [utxos Hutxos].
    { intros h Hh. apply Hsame in Hh. apply is_ok_eq.
      apply promise_all_total. intros r Hr.
      specialize (Hnormal h Hh). rewrite Forall_forall in Hnormal. by apply Hnormal. }
    exists (filter (fun u => Kupo.requested outRefs u = true) (concat utxos)).
    split; [|split; [|split; [|split]]]; [| | |exact Hnd|exact Hsame].
    + unfold Kupo.getUtxosByOutRef. fold hashes. fold outputsOf in Hutxos |- *.
      unfold outputsOf in *. rewrite Hutxos. cbn [Js.bind].
      by rewrite reduce_concat.
    + apply NoDup_fmap_filter.
      eapply (candidates_NoDup kupoUrl reencode kupo); [exact Hnd| | |exact Hutxos].
      * intros h r Hh Hr. apply Hsame in Hh.
        specialize (Hfaithful h Hh). rewrite Forall_forall in Hfaithful. by apply Hfaithful.
      * intros h Hh. apply Hsame in Hh. by apply Honce.
    + intros u. rewrite list_elem_of_filter, requested_spec.
      rewrite (candidates_elem kupoUrl reencode kupo _ _ Hutxos). split.
      * intros [(o & Ho & Hh & Hi) (h & r & Hin & Hr & Hu)].
        apply Hsame in Hin.
        assert (Htx : Kupo.Raw.transaction_id r = h).
        { specialize (Hfaithful h Hin). rewrite Forall_forall in Hfaithful.
          by apply Hfaithful. }
        exists r. split; [by rewrite Htx|]. split; [|assumption].
        apply list_elem_of_fmap. exists o. split; [|assumption].
        apply normalize_outref in Hu as [H1 H2].
        unfold Kupo.rawRef, Kupo.outRefPair. congruence.
      * intros (r & Hr & Hreq & Hu).
        apply list_elem_of_fmap in Hreq as (o & Heq & Ho).
        unfold Kupo.rawRef, Kupo.outRefPair in Heq. injection Heq as Hh Hi.
        pose proof (normalize_outref _ _ _ _ _ Hu) as [H1 H2].
        split.
        -- exists o. split; [assumption|]. split; congruence.
        -- exists (Kupo.Raw.transaction_id r), r. split; [|by split].
           apply Hsame. apply list_elem_of_fmap. exists o. by split.
  - intros Hbad Hok. apply Exists_exists in Hbad as (h & Hh & Hbad).
    apply Exists_exists in Hbad as (r & Hr & Hbad). apply Hbad.
    apply is_ok_eq in Hok as [utxos Hok]. unfold Kupo.getUtxosByOutRef in Hok.
    apply bind_ok in Hok as (fetched & Hfetched & _).
    apply Hsame in Hh.
    pose proof (promise_all_each _ _ _ Hfetched h Hh) as Hone.
    apply is_ok_eq in Hone as [us Hus].
    by apply (promise_all_each _ _ _ Hus r).
Qed.

(** Five references, two of them equal, three to one transaction and one to
    a transaction without unspent outputs: three outputs are returned. *)
Lemma getUtxosByOutRef_exact_witness :
  exists utxos,
    Kupo.getUtxosByOutRef Example.kupoUrl Example.reencode Example.kupo
      [ {| Kupo.OutRef.txHash := "a1"; Kupo.OutRef.outputIndex := 0 |};
        {| Kupo.OutRef.txHash := "c3"; Kupo.OutRef.outputIndex := 0 |};
        {| Kupo.OutRef.txHash := "a1"; Kupo.OutRef.outputIndex := 0 |};
        {| Kupo.OutRef.txHash := "a1"; Kupo.OutRef.outputIndex := 2 |};
        {| Kupo.OutRef.txHash := "ff"; Kupo.OutRef.outputIndex := 7 |} ] = Js.Ok utxos /\
    NoDup (Kupo.ref <$> utxos).
Proof.
  destruct (getUtxosByOutRef_exact Example.kupoUrl Example.reencode Example.kupo
      [ {| Kupo.OutRef.txHash := "a1"; Kupo.OutRef.outputIndex := 0 |};
        {| Kupo.OutRef.txHash := "c3"; Kupo.OutRef.outputIndex := 0 |};
        {| Kupo.OutRef.txHash := "a1"; Kupo.OutRef.outputIndex := 0 |};
        {| Kupo.OutRef.txHash := "a1"; Kupo.OutRef.outputIndex := 2 |};
        {| Kupo.OutRef.txHash := "ff"; Kupo.OutRef.outputIndex := 7 |} ])
    as [Hgood _].
  destruct Hgood as (utxos & Hcall & Hnd & _).
  - apply (bool_decide_unpack _). vm_compute. reflexivity.
  - apply (bool_decide_unpack _). vm_compute. reflexivity.
  - apply (bool_decide_unpack _). vm_compute. reflexivity.
  - exists utxos. split; assumption.
Defined.

(** One reference, to the first output of transaction [b2].  Kupo answers
    with the two outputs of [b2]; the second one, which was not asked for,
    has an inline datum without body, and the call fails although the first
    one is unspent and is normalized. *)
Lemma getUtxosByOutRef_fails_on_sibling_output :
  let outRefs := [ {| Kupo.OutRef.txHash := "b2"; Kupo.OutRef.outputIndex := 0 |} ] in
  Kupo.outputsOf Example.kupoUrl Example.kupo "b2" = [Example.b2_0; Example.b2_1] /\
  Kupo.rawRef Example.b2_0 ∈ Kupo.outRefPair <$> outRefs /\
  Js.is_ok (Kupo.kupmiosUtxoToUtxo Example.kupoUrl Example.reencode Example.kupo Example.b2_0) /\
  Kupo.getUtxosByOutRef Example.kupoUrl Example.reencode Example.kupo outRefs =
    Js.Err (Js.Error "No datum found for datum hash: d9").
Proof.
  repeat split; try (vm_compute; reflexivity).
  - left.
Qed.

(** The references of the outputs returned in that run, in order. *)
Example getUtxosByOutRef_run :
  match Kupo.getUtxosByOutRef Example.kupoUrl Example.reencode Example.kupo
          [ {| Kupo.OutRef.txHash := "a1"; Kupo.OutRef.outputIndex := 0 |};
            {| Kupo.OutRef.txHash := "c3"; Kupo.OutRef.outputIndex := 0 |};
            {| Kupo.OutRef.txHash := "a1"; Kupo.OutRef.outputIndex := 0 |};
            {| Kupo.OutRef.txHash := "a1"; Kupo.OutRef.outputIndex := 2 |};
            {| Kupo.OutRef.txHash := "ff"; Kupo.OutRef.outputIndex := 7 |} ] with
  | Js.Ok utxos => Kupo.ref <$> utxos = [("a1", 0%Z); ("a1", 2%Z); ("c3", 0%Z)]
  | Js.Err _ => False
  end.
Proof. vm_compute. reflexivity. Qed.

(** * Further properties *)

(** ** The session cookie *)

Lemma strip_prefix_app p s : Js.strip_prefix p (p +:+ s) = Some s.
Proof.
  induction p as [|a p IH]; [by destruct s|].
  change (String a p +:+ s) with (String a (p +:+ s)). cbn [Js.strip_prefix].
  by rewrite bool_decide_eq_true_2.
Qed.

Lemma strip_prefix_spec p s rest : Js.strip_prefix p s = Some rest -> s = p +:+ rest.
Proof.
  revert s. induction p as [|a p IH]; intros s.
  - destruct s; cbn [Js.strip_prefix]; intros [= <-]; reflexivity.
  - destruct s as [|b s]; cbn [Js.strip_prefix]; [discriminate|].
    case_bool_decide as Hab; [|discriminate]. subst b. intros H.
    change (String a p +:+ rest) with (String a (p +:+ rest)). f_equal. by apply IH.
Qed.

Lemma until_semicolon_app value attrs :
  Js.free_of ";" value -> (attrs = "" \/ exists rest, attrs = String ";" rest) ->
  Auth.until_semicolon (value +:+ attrs) = value.
Proof.
  intros Hfree Hattrs. induction value as [|c value IH].
  - change ("" +:+ attrs) with attrs.
    destruct Hattrs as [->|[rest ->]]; [reflexivity|].
    cbn [Auth.until_semicolon]. by rewrite bool_decide_eq_true_2.
  - destruct Hfree as [Hc Hfree].
    change (String c value +:+ attrs) with (String c (value +:+ attrs)).
    cbn [Auth.until_semicolon]. rewrite bool_decide_eq_false_2 by exact Hc.
    by rewrite IH.
Qed.

Lemma until_semicolon_spec s :
  Js.free_of ";" (Auth.until_semicolon s) /\
  exists rest, s = Auth.until_semicolon s +:+ rest /\
               (rest = "" \/ exists rest', rest = String ";" rest').
Proof.
  induction s as [|a s (IHfree & rest & IH1 & IH2)]; cbn [Auth.until_semicolon].
  - split; [exact I|]. exists "". split; [reflexivity | by left].
  - case_bool_decide as Ha.
    + subst a. split; [exact I|]. exists (String ";" s). split; [reflexivity | right; eauto].
    + split; [by split|]. exists rest. split; [|exact IH2].
      change (String a (Auth.until_semicolon s) +:+ rest)
        with (String a (Auth.until_semicolon s +:+ rest)).
      by rewrite <- IH1.
Qed.

(** X1. A response whose cookie header starts with [CF_Authorization=]
    followed by a non-empty value without [";"], and then by nothing or by
    [";"] and attributes, stores exactly that value, and the next call sends
    it back as the single [Cookie] header. *)
Theorem session_cookie_round_trip (s : Auth.Session) (value attrs : string) :
  value <> "" ->
  Js.free_of ";" value ->
  (attrs = "" \/ exists rest, attrs = String ";" rest) ->
  let header := "CF_Authorization=" +:+ value +:+ attrs in
  Auth.cookie_match header = Some value /\
  Auth.cfAuthorizationCookie (Auth.observe s (Some header)) = Some value /\
  Auth.getAuthHeaders (snd (Auth.authenticatedFetch s (Some header))) =
    [("Cookie", "CF_Authorization=" +:+ value)].
Proof.
  intros Hne Hfree Hattrs header.
  assert (Hmatch : Auth.cookie_match header = Some value).
  { subst header.
    change ("CF_Authorization=" +:+ value +:+ attrs)
      with (String "C" ("F_Authorization=" +:+ value +:+ attrs)).
    cbn [Auth.cookie_match].
    change (String "C" ("F_Authorization=" +:+ value +:+ attrs))
      with ("CF_Authorization=" +:+ (value +:+ attrs)).
    rewrite strip_prefix_app, (until_semicolon_app _ _ Hfree Hattrs).
    destruct value; [by destruct Hne | reflexivity]. }
  assert (Hcookie : Auth.cfAuthorizationCookie (Auth.observe s (Some header)) = Some value).
  { by rewrite observe_cookie, Hmatch. }
  split; [exact Hmatch|]. split; [exact Hcookie|].
  unfold Auth.authenticatedFetch, Auth.getAuthHeaders. cbn [snd]. rewrite Hcookie.
  destruct value; [by destruct Hne | reflexivity].
Qed.

Lemma session_cookie_round_trip_witness :
  Auth.cookie_match "CF_Authorization=eyJhbGciOi; Path=/; HttpOnly" = Some "eyJhbGciOi".
Proof.
  apply (session_cookie_round_trip (Auth.new "id" "secret") "eyJhbGciOi" "; Path=/; HttpOnly").
  - discriminate.
  - repeat split; discriminate.
  - right. eauto.
Defined.

(** X2. Whatever the cookie header, a value that is extracted is not empty,
    holds no [";"], and stands in the header right after [CF_Authorization=]
    and right before a [";"] or the end of the header. *)
Theorem cookie_match_sound (header captured : string) :
  Auth.cookie_match header = Some captured ->
  captured <> "" /\
  Js.free_of ";" captured /\
  exists before after,
    header = before +:+ "CF_Authorization=" +:+ captured +:+ after /\
    (after = "" \/ exists rest, after = String ";" rest).
Proof.
  induction header as [|a header IH]; cbn [Auth.cookie_match]; [discriminate|].
  assert (Hlater : Auth.cookie_match header = Some captured ->
            captured <> "" /\ Js.free_of ";" captured /\
            exists before after,
              String a header = before +:+ "CF_Authorization=" +:+ captured +:+ after /\
              (after = "" \/ exists rest, after = String ";" rest)).
  { intros H. destruct (IH H) as (Hne & Hfree & before & after & -> & Hafter).
    split; [exact Hne|]. split; [exact Hfree|].
    exists (String a before), after. split; [reflexivity | exact Hafter]. }
  destruct (Js.strip_prefix _ (String a header)) as [rest|] eqn:Hprefix; [|exact Hlater].
  destruct (Auth.until_semicolon rest) as [|b cap] eqn:Hcap; [exact Hlater|].
  intros [= <-]. split; [discriminate|].
  destruct (until_semicolon_spec rest) as (Hfree & after & Hrest & Hafter).
  rewrite Hcap in Hfree, Hrest. split; [exact Hfree|].
  exists "", after. split; [|exact Hafter].
  apply strip_prefix_spec in Hprefix. rewrite Hprefix, Hrest. reflexivity.
Qed.

Lemma cookie_match_sound_witness :
  exists before after,
    "lang=en, CF_Authorization=abc; Secure" =
      before +:+ "CF_Authorization=" +:+ "abc" +:+ after /\
    (after = "" \/ exists rest, after = String ";" rest).
Proof.
  apply (cookie_match_sound "lang=en, CF_Authorization=abc; Secure" "abc").
  reflexivity.
Defined.

(** ** The asset map of a UTxO *)

Abbreviation unitKey := (Js.remove_first ".").

Lemma assets_go_lookup (a : gmap string Z) (entries : list (string * Z)) (k : string) :
  foldl (fun a '(unit, quantity) => <[unitKey unit := quantity]> a) a entries !! k =
  match list_find (fun e => unitKey (fst e) = k) (reverse entries) with
  | Some (_, (_, quantity)) => Some quantity
  | None => a !! k
  end.
Proof.
  revert a. induction entries as [|[unit quantity] entries IH]; intros a; [reflexivity|].
  cbn [foldl]. rewrite IH, reverse_cons.
  destruct (list_find _ (reverse entries)) as [[i [u q]]|] eqn:Hfind.
  - erewrite list_find_app_l by exact Hfind. reflexivity.
  - rewrite list_find_app_r by exact Hfind. cbn.
    case_decide as Hk; cbn.
    + by rewrite <- Hk, lookup_insert_eq.
    + by rewrite lookup_insert_ne.
Qed.

Lemma remove_first_free sep s : Js.free_of sep s -> Js.remove_first sep s = s.
Proof.
  induction s as [|c s IH]; [reflexivity|]. intros [Hc Hs]. cbn [Js.remove_first].
  rewrite bool_decide_eq_false_2 by exact Hc. by rewrite IH.
Qed.

Lemma remove_first_app sep a b :
  Js.free_of sep a -> Js.remove_first sep (a +:+ String sep b) = a +:+ b.
Proof.
  induction a as [|c a IH].
  - intros _. change ("" +:+ String sep b) with (String sep b). cbn [Js.remove_first].
    by rewrite bool_decide_eq_true_2.
  - intros [Hc Ha]. change (String c a +:+ String sep b) with (String c (a +:+ String sep b)).
    cbn [Js.remove_first]. rewrite bool_decide_eq_false_2 by exact Hc. by rewrite IH.
Qed.

(** X3. The asset map of a UTxO always has a [lovelace] entry.  When no
    asset of the value is itself listed under the key [lovelace] (with or
    without one [.]) and the coins are an integer that the answer carries
    exactly (at most [2^53] in magnitude), the entry holds the coins. *)
Theorem assets_always_hold_lovelace (v : Kupo.Raw.Value) :
  is_Some (Kupo.toAssets v !! "lovelace") /\
  (Forall (fun e => unitKey (fst e) <> "lovelace") (Kupo.Raw.assets v) ->
   Js.safe_integer (Kupo.Raw.coins v) ->
   Kupo.toAssets v !! "lovelace" = Some (Kupo.Raw.coins v)).
Proof.
  unfold Kupo.toAssets. rewrite assets_go_lookup.
  destruct (list_find _ (reverse (Kupo.Raw.assets v))) as [[i [u q]]|] eqn:Hfind.
  - split; [eauto|]. intros Hnone _.
    apply list_find_Some in Hfind as (Hi & Hkey & _).
    apply list_elem_of_lookup_2 in Hi. rewrite elem_of_reverse in Hi.
    rewrite Forall_forall in Hnone. by destruct (Hnone _ Hi).
  - rewrite lookup_singleton_eq. split; [eauto | reflexivity].
Qed.

Lemma assets_always_hold_lovelace_witness :
  Kupo.toAssets {| Kupo.Raw.coins := 2000000;
                   Kupo.Raw.assets := [(Example.policy +:+ ".494e4459", 1%Z)] |}
    !! "lovelace" = Some 2000000%Z.
Proof.
  apply (assets_always_hold_lovelace
           {| Kupo.Raw.coins := 2000000;
              Kupo.Raw.assets := [(Example.policy +:+ ".494e4459", 1%Z)] |}).
  - repeat constructor. vm_compute. discriminate.
  - unfold Js.safe_integer. cbn [Kupo.Raw.coins]. lia.
Defined.

(** X4. An asset that Kupo lists as [policy.name], with a quantity that the
    answer carries exactly (at most [2^53] in magnitude), is found in the
    asset map under the unit [policy ++ name], with this quantity, provided
    no later asset of the value gives the same unit; an asset listed
    without [.] keeps its key; and every key of the map is [lovelace] or
    comes from an asset of the value. *)
Theorem assets_are_keyed_by_unit (v : Kupo.Raw.Value) :
  (forall before policy name quantity after,
     Kupo.Raw.assets v = before ++ (policy +:+ "." +:+ name, quantity) :: after ->
     Js.free_of "." policy ->
     Js.safe_integer quantity ->
     Forall (fun e => unitKey (fst e) <> policy +:+ name) after ->
     Kupo.toAssets v !! (policy +:+ name) = Some quantity) /\
  (forall before unit quantity after,
     Kupo.Raw.assets v = before ++ (unit, quantity) :: after ->
     Js.free_of "." unit ->
     Js.safe_integer quantity ->
     Forall (fun e => unitKey (fst e) <> unit) after ->
     Kupo.toAssets v !! unit = Some quantity) /\
  (forall key,
     is_Some (Kupo.toAssets v !! key) ->
     key = "lovelace" \/
     exists unit quantity, (unit, quantity) ∈ Kupo.Raw.assets v /\ unitKey unit = key).
Proof.
  assert (Hlast : forall before unit quantity after,
            Kupo.Raw.assets v = before ++ (unit, quantity) :: after ->
            Forall (fun e => unitKey (fst e) <> unitKey unit) after ->
            Kupo.toAssets v !! unitKey unit = Some quantity).
  { intros before unit quantity after Hassets Hafter.
    unfold Kupo.toAssets. rewrite assets_go_lookup, Hassets.
    rewrite reverse_app, reverse_cons, <- app_assoc.
    rewrite list_find_app_r.
    - cbn. rewrite decide_True by reflexivity. reflexivity.
    - apply list_find_None, Forall_reverse. exact Hafter. }
  split; [|split].
  - intros before policy name quantity after Hassets Hpolicy _ Hafter.
    change ("." +:+ name) with (String "." name) in Hassets.
    rewrite <- (remove_first_app "." policy name Hpolicy).
    apply (Hlast before _ _ after Hassets).
    by rewrite remove_first_app.
  - intros before unit quantity after Hassets Hunit _ Hafter.
    rewrite <- (remove_first_free "." unit Hunit) at 1.
    apply (Hlast before _ _ after Hassets). by rewrite remove_first_free.
  - intros key [quantity Hk]. revert Hk. unfold Kupo.toAssets. rewrite assets_go_lookup.
    destruct (list_find _ (reverse (Kupo.Raw.assets v))) as [[i [u q]]|] eqn:Hfind.
    + intros _. right. apply list_find_Some in Hfind as (Hi & Hkey & _).
      apply list_elem_of_lookup_2 in Hi. rewrite elem_of_reverse in Hi. exists u, q. by split.
    + intros Hk. left. apply lookup_singleton_Some in Hk. by destruct Hk as [<- _].
Qed.

Lemma assets_are_keyed_by_unit_witness :
  Kupo.toAssets {| Kupo.Raw.coins := 2000000;
                   Kupo.Raw.assets := [("a0b1.544f4b", 5%Z); ("c2d3", 7%Z)] |}
    !! ("a0b1" +:+ "544f4b") = Some 5%Z.
Proof.
  apply (proj1 (assets_are_keyed_by_unit
                  {| Kupo.Raw.coins := 2000000;
                     Kupo.Raw.assets := [("a0b1.544f4b", 5%Z); ("c2d3", 7%Z)] |})
           [] "a0b1" "544f4b" 5%Z [("c2d3", 7%Z)]).
  - reflexivity.
  - repeat split; discriminate.
  - unfold Js.safe_integer. lia.
  - repeat constructor. vm_compute. discriminate.
Defined.

(** ** Normalization of an answer *)

(** X5. [kupmiosUtxosToUtxos] is all or nothing: it fulfils exactly when
    every record of the answer is normalized, and then returns one UTxO per
    record, in the order of the answer, each with the transaction id, the
    output index and the address of its record. *)
Theorem normalization_is_all_or_nothing (kupoUrl : string)
    (reencode : string -> Js.result Js.error string) (kupo : Kupo.Indexer)
    (records : list Kupo.Raw.Match) :
  let normalize := Kupo.kupmiosUtxoToUtxo kupoUrl reencode kupo in
  (Js.is_ok (Kupo.kupmiosUtxosToUtxos kupoUrl reencode kupo records) <->
   Forall (fun r => Js.is_ok (normalize r)) records) /\
  (forall utxos,
     Kupo.kupmiosUtxosToUtxos kupoUrl reencode kupo records = Js.Ok utxos ->
     length utxos = length records /\
     forall i r,
       records !! i = Some r ->
       exists u, utxos !! i = Some u /\ normalize r = Js.Ok u /\
                 Kupo.txHash u = Kupo.Raw.transaction_id r /\
                 Kupo.outputIndex u = Kupo.Raw.output_index r /\
                 Kupo.address u = Kupo.Raw.address r).
Proof.
  intros normalize. unfold Kupo.kupmiosUtxosToUtxos. split.
  - split.
    + intros Hok. apply is_ok_eq in Hok as [utxos Hok].
      apply Forall_forall. intros r Hr. by apply (promise_all_each _ _ _ Hok).
    + intros Hall. apply is_ok_eq. apply promise_all_total.
      by apply Forall_forall.
  - intros utxos Hok. split; [by apply promise_all_length in Hok|].
    apply promise_all_ok in Hok. intros i r Hr.
    destruct (Forall2_lookup_l _ _ _ _ _ Hok Hr) as (u & Hu & Hnorm).
    exists u. split; [exact Hu|]. split; [exact Hnorm|].
    apply normalize_ok in Hnorm as (body & ref & _ & _ & ->). by repeat split.
Qed.

Lemma normalization_is_all_or_nothing_witness :
  exists utxos,
    Kupo.kupmiosUtxosToUtxos Example.kupoUrl Example.reencode Example.kupo
      [Example.a1_0; Example.a1_1; Example.a1_2] = Js.Ok utxos /\
    length utxos = 3%nat.
Proof.
  eexists. split; [vm_compute; reflexivity|].
  eapply (proj2 (normalization_is_all_or_nothing Example.kupoUrl Example.reencode
                   Example.kupo [Example.a1_0; Example.a1_1; Example.a1_2])).
  vm_compute. reflexivity.
Defined.

(** ** Single-holder fetch: the outcomes *)

(** X6. [getUtxoByUnit] resolves with [undefined] only when the exact-unit
    query matched nothing, and with a UTxO only when the query matched
    exactly one record, of which the UTxO is the normalization. *)
Theorem getUtxoByUnit_outcomes (kupoUrl : string)
    (fromUnit : string -> string * option string)
    (reencode : string -> Js.result Js.error string)
    (kupo : Kupo.Indexer) (unit : string) :
  let records := Kupo.matches kupo (Kupo.unitUrl kupoUrl fromUnit unit) in
  (Kupo.getUtxoByUnit kupoUrl fromUnit reencode kupo unit = Js.Ok None <-> records = []) /\
  (forall u,
     Kupo.getUtxoByUnit kupoUrl fromUnit reencode kupo unit = Js.Ok (Some u) <->
     exists r, records = [r] /\ Kupo.kupmiosUtxoToUtxo kupoUrl reencode kupo r = Js.Ok u).
Proof.
  intros records. unfold Kupo.getUtxoByUnit. fold records.
  assert (Hcases : forall o,
            (let* utxos := await Kupo.kupmiosUtxosToUtxos kupoUrl reencode kupo records in
             if (1 <? length utxos)%nat
             then Js.Err (Js.Error "Unit needs to be an NFT or only held by one address.")
             else Js.Ok (head utxos)) = Js.Ok o ->
            exists utxos,
              Js.promise_all (Kupo.kupmiosUtxoToUtxo kupoUrl reencode kupo) records
                = Js.Ok utxos /\
              (length utxos <= 1)%nat /\ head utxos = o).
  { intros o H. apply bind_ok in H as (utxos & Hutxos & H).
    exists utxos. split; [exact Hutxos|].
    destruct (1 <? length utxos)%nat eqn:Hlen; [discriminate|].
    apply Nat.ltb_ge in Hlen. split; [exact Hlen | congruence]. }
  split.
  - split.
    + intros H. apply Hcases in H as (utxos & Hutxos & Hlen & Hhead).
      apply promise_all_length in Hutxos.
      destruct utxos; [|discriminate]. by destruct records.
    + intros ->. reflexivity.
  - intros u. split.
    + intros H. apply Hcases in H as (utxos & Hutxos & Hlen & Hhead).
      pose proof (promise_all_length _ _ _ Hutxos) as Hsame.
      destruct utxos as [|u' [|? ?]]; try discriminate; [|simpl in Hlen; lia].
      destruct records as [|r [|? ?]]; try discriminate.
      exists r. split; [reflexivity|].
      apply promise_all_ok in Hutxos. inversion Hutxos; subst.
      simpl in Hhead. congruence.
    + intros (r & -> & Hr). unfold Kupo.kupmiosUtxosToUtxos. simpl. rewrite Hr. reflexivity.
Qed.

Lemma getUtxoByUnit_outcomes_witness :
  exists u,
    Kupo.getUtxoByUnit Example.kupoUrl Example.fromUnit Example.reencode Example.kupo
      (Example.policy +:+ "494e4459") = Js.Ok (Some u).
Proof.
  eexists.
  apply (proj2 (getUtxoByUnit_outcomes Example.kupoUrl Example.fromUnit Example.reencode
                  Example.kupo (Example.policy +:+ "494e4459"))).
  exists Example.a1_0. split; vm_compute; reflexivity.
Defined.

(** ** Fetch by output references: what does not depend on Kupo *)

Lemma unique_go_seen (seen xs : list string) :
  (forall x, x ∈ xs -> x ∈ seen) ->
  foldl (fun (seen : list string) x =>
           if bool_decide (x ∈ seen) then seen else seen ++ [x]) seen xs = seen.
Proof.
  induction xs as [|x xs IH]; intros Hin; [reflexivity|]. cbn [foldl].
  rewrite bool_decide_eq_true_2 by (apply Hin; by left).
  apply IH. intros y Hy. apply Hin. by right.
Qed.

Lemma unique_app_seen (xs extra : list string) :
  (forall x, x ∈ extra -> x ∈ xs) -> Kupo.unique (xs ++ extra) = Kupo.unique xs.
Proof.
  intros Hin. unfold Kupo.unique. rewrite foldl_app.
  apply unique_go_seen. intros x Hx. apply unique_spec. by apply Hin.
Qed.

(** X7. Whatever Kupo answers, [getUtxosByOutRef] returns only outputs
    whose (transaction hash, output index) pair was asked for; and it
    resolves with an empty array when no reference is given. *)
Theorem getUtxosByOutRef_only_requested (kupoUrl : string)
    (reencode : string -> Js.result Js.error string) (kupo : Kupo.Indexer)
    (outRefs : list Kupo.OutRef.t) :
  (forall utxos,
     Kupo.getUtxosByOutRef kupoUrl reencode kupo outRefs = Js.Ok utxos ->
     forall u, u ∈ utxos -> Kupo.ref u ∈ Kupo.outRefPair <$> outRefs) /\
  (outRefs = [] -> Kupo.getUtxosByOutRef kupoUrl reencode kupo outRefs = Js.Ok []).
Proof.
  split.
  - intros utxos H u Hu. unfold Kupo.getUtxosByOutRef in H.
    apply bind_ok in H as (fetched & _ & [= <-]).
    apply list_elem_of_filter in Hu as [Hreq _].
    apply requested_spec in Hreq as (o & Ho & Hh & Hi).
    apply list_elem_of_fmap. exists o. split; [|exact Ho].
    unfold Kupo.ref, Kupo.outRefPair. by rewrite Hh, Hi.
  - intros ->. reflexivity.
Qed.

Lemma getUtxosByOutRef_only_requested_witness :
  exists utxos,
    Kupo.getUtxosByOutRef Example.kupoUrl Example.reencode Example.kupo
      [ {| Kupo.OutRef.txHash := "a1"; Kupo.OutRef.outputIndex := 1 |} ] = Js.Ok utxos /\
    forall u, u ∈ utxos -> Kupo.ref u ∈ [("a1", 1%Z)].
Proof.
  eexists. split; [vm_compute; reflexivity|].
  apply (proj1 (getUtxosByOutRef_only_requested Example.kupoUrl Example.reencode Example.kupo
                  [ {| Kupo.OutRef.txHash := "a1"; Kupo.OutRef.outputIndex := 1 |} ])).
  vm_compute. reflexivity.
Defined.

(** X8. Repeating output references does not change the result: appending
    references that are already in the array gives the same queries, in the
    same order, and the same outcome. *)
Theorem getUtxosByOutRef_ignores_repeats (kupoUrl : string)
    (reencode : string -> Js.result Js.error string) (kupo : Kupo.Indexer)
    (outRefs extra : list Kupo.OutRef.t) :
  (forall o, o ∈ extra -> o ∈ outRefs) ->
  Kupo.unique (Kupo.OutRef.txHash <$> (outRefs ++ extra)) =
    Kupo.unique (Kupo.OutRef.txHash <$> outRefs) /\
  Kupo.getUtxosByOutRef kupoUrl reencode kupo (outRefs ++ extra) =
    Kupo.getUtxosByOutRef kupoUrl reencode kupo outRefs.
Proof.
  intros Hextra.
  assert (Hunique : Kupo.unique (Kupo.OutRef.txHash <$> (outRefs ++ extra)) =
                    Kupo.unique (Kupo.OutRef.txHash <$> outRefs)).
  { rewrite fmap_app. apply unique_app_seen. intros h Hh.
    apply list_elem_of_fmap in Hh as (o & -> & Ho).
    apply list_elem_of_fmap. exists o. split; [reflexivity | by apply Hextra]. }
  split; [exact Hunique|].
  unfold Kupo.getUtxosByOutRef. rewrite Hunique.
  destruct (Js.promise_all _ _) as [fetched|e]; [|reflexivity]. cbn [Js.bind]. f_equal.
  apply list_filter_iff. intros u.
  rewrite !requested_spec. split.
  - intros (o & Ho & H). exists o. split; [|exact H].
    apply elem_of_app in Ho as [Ho|Ho]; [exact Ho | by apply Hextra].
  - intros (o & Ho & H). exists o. split; [|exact H]. apply elem_of_app. by left.
Qed.

Lemma getUtxosByOutRef_ignores_repeats_witness :
  Kupo.getUtxosByOutRef Example.kupoUrl Example.reencode Example.kupo
    ([ {| Kupo.OutRef.txHash := "a1"; Kupo.OutRef.outputIndex := 0 |};
       {| Kupo.OutRef.txHash := "c3"; Kupo.OutRef.outputIndex := 0 |} ] ++
     [ {| Kupo.OutRef.txHash := "c3"; Kupo.OutRef.outputIndex := 0 |};
       {| Kupo.OutRef.txHash := "a1"; Kupo.OutRef.outputIndex := 0 |} ]) =
  Kupo.getUtxosByOutRef Example.kupoUrl Example.reencode Example.kupo
    [ {| Kupo.OutRef.txHash := "a1"; Kupo.OutRef.outputIndex := 0 |};
      {| Kupo.OutRef.txHash := "c3"; Kupo.OutRef.outputIndex := 0 |} ].
Proof.
  apply getUtxosByOutRef_ignores_repeats.
  intros o Ho. apply elem_of_cons in Ho as [->|Ho]; [right; left|].
  apply elem_of_cons in Ho as [->|Ho]; [left|]. by apply elem_of_nil in Ho.
Defined.

(** ** Delegation: which summary is read *)

(** X9. [getDelegation] reads the first summary of the answer and nothing
    else: later summaries do not matter.  When the first summary has no
    [delegate] the call is rejected with a [TypeError], whatever its
    rewards; when it has a [delegate] but no [rewards] it is rejected as
    well; otherwise it resolves with the pool id ([null] for an empty id),
    and with the rewards of the summary when these are an integer that the
    answer carries exactly (at most [2^53] in magnitude). *)
Theorem getDelegation_reads_first_summary (key : string) (first : Ogmios.Summary)
    (others : list (string * Ogmios.Summary)) :
  let outcome :=
    Ogmios.getDelegation (Ogmios.Json {| Ogmios.summaries := Some ((key, first) :: others) |}) in
  outcome = Ogmios.getDelegation (Ogmios.Json {| Ogmios.summaries := Some [(key, first)] |}) /\
  (Ogmios.delegate first = None -> outcome = Js.Err (Js.TypeError "id")) /\
  (forall pool,
     Ogmios.delegate first = Some pool -> Ogmios.rewards first = None ->
     outcome = Js.Err (Js.TypeError "ada")) /\
  (forall pool amount,
     Ogmios.delegate first = Some pool -> Ogmios.rewards first = Some amount ->
     exists delegation,
       outcome = Js.Ok delegation /\
       Ogmios.Delegation.poolId delegation =
         (if bool_decide (Ogmios.id pool = "") then None else Some (Ogmios.id pool)) /\
       (Js.safe_integer (Ogmios.lovelace (Ogmios.ada amount)) ->
        Ogmios.Delegation.rewards delegation = Ogmios.lovelace (Ogmios.ada amount))).
Proof.
  intros outcome. subst outcome. unfold Ogmios.getDelegation. cbn.
  split; [reflexivity|]. split; [|split].
  - intros ->. reflexivity.
  - intros pool -> ->. reflexivity.
  - intros pool amount -> ->. cbn. eexists. split; [reflexivity|]. cbn.
    split; [by destruct (Ogmios.id pool) | reflexivity].
Qed.

Lemma getDelegation_reads_first_summary_witness :
  Ogmios.getDelegation
    (Ogmios.Json {| Ogmios.summaries :=
       Some [("e07a", {| Ogmios.delegate := None;
                         Ogmios.rewards :=
                           Some {| Ogmios.ada := {| Ogmios.lovelace := 17 |} |} |});
             ("f1b2", {| Ogmios.delegate := Some {| Ogmios.id := "pool1abc" |};
                         Ogmios.rewards :=
                           Some {| Ogmios.ada := {| Ogmios.lovelace := 5 |} |} |})] |}) =
  Js.Err (Js.TypeError "id").
Proof.
  apply (proj1 (proj2 (getDelegation_reads_first_summary "e07a"
           {| Ogmios.delegate := None;
              Ogmios.rewards := Some {| Ogmios.ada := {| Ogmios.lovelace := 17 |} |} |}
           [("f1b2", {| Ogmios.delegate := Some {| Ogmios.id := "pool1abc" |};
                        Ogmios.rewards :=
                          Some {| Ogmios.ada := {| Ogmios.lovelace := 5 |} |} |})]))).
  reflexivity.
Defined.

(** ** Protocol parameters: cost models and integer members *)











(** ** Confirmation polling *)

Lemma run_snoc started checkInterval s history e :
  AwaitTx.run started checkInterval s (history ++ [e]) =
  match AwaitTx.run started checkInterval s history with
  | Some s' => AwaitTx.step started checkInterval s' e
  | None => None
  end.
Proof.
  revert s. induction history as [|e0 history IH]; intros s; cbn [app AwaitTx.run].
  - by destruct (AwaitTx.step started checkInterval s e).
  - destruct (AwaitTx.step started checkInterval s e0); [apply IH | reflexivity].
Qed.

Lemma elem_of_remove_due due due' l : due' ∈ AwaitTx.remove_due due l -> due' ∈ l.
Proof.
  induction l as [|d l IH]; cbn [AwaitTx.remove_due]; [done|].
  case_bool_decide as Hd; [by right|]. intros Hin. apply elem_of_cons in Hin as [->|Hin]; [by left|].
  right. by apply IH.
Qed.

Lemma interval_snoc history e (b : bool) :
  b = negb (existsb AwaitTx.confirms history) && negb (AwaitTx.confirms e) ->
  b = negb (existsb AwaitTx.confirms (history ++ [e])).
Proof.
  intros ->. rewrite existsb_app. cbn [existsb]. rewrite orb_false_r.
  by destruct (existsb AwaitTx.confirms history), (AwaitTx.confirms e).
Qed.

Lemma poller_invariant_holds started checkInterval history s :
  AwaitTx.awaitTx started checkInterval history = Some s ->
  AwaitTx.invariant started checkInterval history s.
Proof.
  unfold AwaitTx.awaitTx. revert s.
  induction history as [|e history IH] using rev_ind; intros s.
  - intros [= <-]. split; cbn; try done; try lia.
    intros due H. by apply elem_of_nil in H.
  - rewrite run_snoc.
    destruct (AwaitTx.run started checkInterval (AwaitTx.init started) history)
      as [s0|]; [|discriminate].
    specialize (IH s0 eq_refl). destruct IH as [Hp Hf Hi Hs Hr].
    assert (Hs' : forall due, due ∈ AwaitTx.settling s0 ->
              exists t body, AwaitTx.Response t body ∈ history ++ [e] /\
                AwaitTx.isConfirmed body = true /\
                (started + checkInterval <= t)%Z /\ due = (t + AwaitTx.settleDelay)%Z).
    { intros due Hdue. destruct (Hs due Hdue) as (t & body & Hin & H).
      exists t, body. split; [apply elem_of_app; by left | exact H]. }
    assert (Hr' : forall at_, AwaitTx.resolved s0 = Some at_ ->
              exists t body, AwaitTx.Response t body ∈ history ++ [e] /\
                AwaitTx.isConfirmed body = true /\
                (started + checkInterval <= t)%Z /\ (t + AwaitTx.settleDelay <= at_)%Z).
    { intros at_ Hat. destruct (Hr at_ Hat) as (t & body & Hin & H).
      exists t, body. split; [apply elem_of_app; by left | exact H]. }
    destruct e as [t|t body|t due]; cbn [AwaitTx.step].
    + destruct (AwaitTx.interval s0) eqn:Hint;
        repeat case_bool_decide; cbn; try discriminate.
      intros [= <-]. split; cbn; try assumption; try lia.
      apply interval_snoc. cbn. by rewrite <- Hi.
    + destruct (AwaitTx.inFlight s0) as [|n] eqn:Hn; [discriminate|].
      case_bool_decide as Hnow; [|discriminate].
      assert (Ht : (started + checkInterval <= t)%Z) by (pose proof (Hp ltac:(lia)); lia).
      destruct (AwaitTx.isConfirmed body) eqn:Hbody; intros [= <-]; split; cbn;
        try assumption; try lia.
      * apply interval_snoc. cbn. rewrite Hbody. by rewrite andb_false_r.
      * intros due Hdue. apply elem_of_cons in Hdue as [->|Hdue]; [|by apply Hs'].
        exists t, body. split; [apply elem_of_app; right; by left|]. by repeat split.
      * apply interval_snoc. cbn. rewrite Hbody. by rewrite andb_true_r.
    + repeat case_bool_decide; cbn; try discriminate.
      intros [= <-]. split; cbn; try assumption; try lia.
      * apply interval_snoc. cbn. by rewrite andb_true_r.
      * intros due' Hdue'. apply Hs'. by eapply elem_of_remove_due.
      * intros at_. destruct (AwaitTx.resolved s0) as [t0|] eqn:Hres.
        -- intros [= <-]. by apply Hr'.
        -- intros [= <-].
           destruct (Hs' due ltac:(assumption)) as (t' & body & Hin & Hb & Ht' & ->).
           exists t', body. by repeat split.
Qed.

(** X13. [awaitTx] resolves only after the body of some poll has arrived
    with at least one match, no sooner than the settle delay after that
    arrival, and therefore never sooner than [checkInterval] plus the
    settle delay after the call, even for a transaction that was confirmed
    long before. *)
Theorem awaitTx_never_resolves_early (started checkInterval : Z)
    (history : list AwaitTx.event) (s : AwaitTx.State) (resolvedAt : Z) :
  AwaitTx.awaitTx started checkInterval history = Some s ->
  AwaitTx.resolved s = Some resolvedAt ->
  (started + checkInterval + AwaitTx.settleDelay <= resolvedAt)%Z /\
  exists t body,
    AwaitTx.Response t body ∈ history /\
    (exists r rs, body = Some (r :: rs)) /\
    (started + checkInterval <= t)%Z /\
    (t + AwaitTx.settleDelay <= resolvedAt)%Z.
Proof.
  intros Hrun Hres. apply poller_invariant_holds in Hrun.
  destruct (AwaitTx.inv_resolved _ _ _ _ Hrun _ Hres) as (t & body & Hin & Hbody & Ht & Hat).
  split; [lia|]. exists t, body. repeat split; try assumption.
  destruct body as [[|r rs]|]; try discriminate. eauto.
Qed.

(** Polling every three seconds: the first poll finds nothing, the second
    one finds an output, and the promise is resolved one second after the
    second answer. *)
Lemma awaitTx_never_resolves_early_witness :
  (0 + 3000 + AwaitTx.settleDelay <= 7200)%Z /\
  exists t body,
    AwaitTx.Response t body ∈
      [AwaitTx.Tick 3000; AwaitTx.Response 3100 (Some []);
       AwaitTx.Tick 6000; AwaitTx.Response 6200 (Some [Example.a1_0]);
       AwaitTx.Settled 7200 7200] /\
    (exists r rs, body = Some (r :: rs)) /\
    (0 + 3000 <= t)%Z /\
    (t + AwaitTx.settleDelay <= 7200)%Z.
Proof.
  eapply (awaitTx_never_resolves_early 0 3000
            [AwaitTx.Tick 3000; AwaitTx.Response 3100 (Some []);
             AwaitTx.Tick 6000; AwaitTx.Response 6200 (Some [Example.a1_0]);
             AwaitTx.Settled 7200 7200]).
  - vm_compute. reflexivity.
  - reflexivity.
Defined.

(** X14. [awaitTx] polls until a poll finds a match and then stops: after
    a response with at least one match no further poll is started, and as
    long as every response is empty or [null] the promise stays pending,
    the interval stays set, and the next tick starts another poll - there
    is no timeout and no failure. *)
Theorem awaitTx_polls_until_confirmed (started checkInterval : Z)
    (history : list AwaitTx.event) (s : AwaitTx.State) :
  AwaitTx.awaitTx started checkInterval history = Some s ->
  (existsb AwaitTx.confirms history = true ->
   AwaitTx.interval s = false /\
   forall t, AwaitTx.awaitTx started checkInterval (history ++ [AwaitTx.Tick t]) = None) /\
  (existsb AwaitTx.confirms history = false ->
   AwaitTx.resolved s = None /\ AwaitTx.settling s = [] /\ AwaitTx.interval s = true /\
   forall t, (AwaitTx.now s <= t)%Z -> (started + checkInterval <= t)%Z ->
             is_Some (AwaitTx.awaitTx started checkInterval (history ++ [AwaitTx.Tick t]))).
Proof.
  intros Hrun. pose proof (poller_invariant_holds _ _ _ _ Hrun) as [Hp Hf Hi Hs Hr].
  assert (Hnone : existsb AwaitTx.confirms history = false ->
            forall t body, AwaitTx.Response t body ∈ history ->
                           AwaitTx.isConfirmed body = true -> False).
  { intros Hex t body Hin Hbody.
    assert (existsb AwaitTx.confirms history = true); [|congruence].
    apply existsb_exists. exists (AwaitTx.Response t body).
    split; [by apply list_elem_of_In | exact Hbody]. }
  unfold AwaitTx.awaitTx in *. split.
  - intros Hex. rewrite Hex in Hi. split; [exact Hi|].
    intros t. rewrite run_snoc, Hrun. cbn [AwaitTx.step]. rewrite Hi.
    by rewrite andb_false_r.
  - intros Hex. rewrite Hex in Hi. repeat split.
    + destruct (AwaitTx.resolved s) as [at_|] eqn:Hres; [|reflexivity].
      destruct (Hr at_ eq_refl) as (t & body & Hin & Hbody & _). by destruct (Hnone Hex t body).
    + destruct (AwaitTx.settling s) as [|due l] eqn:Hset; [reflexivity|].
      destruct (Hs due ltac:(left)) as (t & body & Hin & Hbody & _).
      by destruct (Hnone Hex t body).
    + exact Hi.
    + intros t Hnow Ht. rewrite run_snoc, Hrun. cbn [AwaitTx.step]. rewrite Hi.
      rewrite !bool_decide_eq_true_2 by assumption. cbn. eauto.
Qed.

(** After two empty answers the third poll starts; after an answer with a
    match no poll starts any more. *)
Lemma awaitTx_polls_until_confirmed_witness :
  is_Some (AwaitTx.awaitTx 0 3000
             ([AwaitTx.Tick 3000; AwaitTx.Response 3100 (Some []);
               AwaitTx.Tick 6000; AwaitTx.Response 6200 None] ++ [AwaitTx.Tick 9000])) /\
  AwaitTx.awaitTx 0 3000
    ([AwaitTx.Tick 3000; AwaitTx.Response 3100 (Some [Example.a1_0])] ++ [AwaitTx.Tick 6000])
    = None.
Proof.
  split.
  - eapply (proj2 (awaitTx_polls_until_confirmed 0 3000
                     [AwaitTx.Tick 3000; AwaitTx.Response 3100 (Some []);
                      AwaitTx.Tick 6000; AwaitTx.Response 6200 None] _ eq_refl)).
    + reflexivity.
    + vm_compute. discriminate.
    + vm_compute. discriminate.
  - eapply (proj1 (awaitTx_polls_until_confirmed 0 3000
                     [AwaitTx.Tick 3000; AwaitTx.Response 3100 (Some [Example.a1_0])]
                     _ eq_refl)).
    reflexivity.
Defined.

(** ** Execution prices without separator *)

Lemma div_nan (x : float) : PrimFloat.div x nan = nan.
Proof.
  rewrite <- (SF2Prim_Prim2SF (PrimFloat.div x nan)), div_spec.
  change (Prim2SF nan) with S754_nan.
  by destruct (Prim2SF x).
Qed.

(** X12. A price string without ["/"] does not make the parameters fail:
    the denominator is [undefined], [parseInt] gives [NaN], and the price
    is [NaN], whatever the numerator. *)
Theorem price_without_separator_is_nan (s : string) :
  Js.free_of "/" s -> Params.price s = nan.
Proof.
  intros Hfree. unfold Params.price. rewrite (split_free _ _ Hfree).
  cbn [lookup list_lookup]. change (Js.to_number (Js.parseInt_elem None)) with nan.
  apply div_nan.
Qed.

Lemma price_without_separator_is_nan_witness : Params.price "0.0577" = nan.
Proof.
  apply price_without_separator_is_nan. repeat split; discriminate.
Defined.

(** ** Script references of known languages *)

(** X15. For a record whose datum is resolved: without script hash the
    script reference is the (falsy) hash itself and Kupo's scripts are not
    consulted; with a script hash that Kupo does not know the normalization
    is rejected with a [TypeError]; a native script is passed on as it is,
    without re-encoding; a Plutus V1 or V2 script is passed on re-encoded,
    under its version, and a failure of the re-encoding is the failure of
    the normalization. *)
Theorem script_reference_outcomes (kupoUrl : string)
    (reencode : string -> Js.result Js.error string) (kupo : Kupo.Indexer)
    (utxo : Kupo.Raw.Match) (body : option string) :
  Kupo.resolveDatum kupoUrl kupo utxo = Js.Ok body ->
  let outcome := Kupo.kupmiosUtxoToUtxo kupoUrl reencode kupo utxo in
  let answer :=
    Kupo.scripts kupo (kupoUrl +:+ "/scripts/" +:+ Js.template (Kupo.Raw.script_hash utxo)) in
  (Js.truthy (Kupo.Raw.script_hash utxo) = false ->
   exists u, outcome = Js.Ok u /\
             Kupo.scriptRef u = Kupo.NoScript (Kupo.Raw.script_hash utxo)) /\
  (Js.truthy (Kupo.Raw.script_hash utxo) = true ->
   (answer = None -> outcome = Js.Err (Js.TypeError "script")) /\
   (forall s, answer = Some s -> Kupo.Raw.language s = "native" ->
      exists u, outcome = Js.Ok u /\
                Kupo.scriptRef u =
                Kupo.ScriptOf {| Kupo.type := Kupo.Native; Kupo.script := Kupo.Raw.script s |}) /\
   (forall s version,
      answer = Some s ->
      (Kupo.Raw.language s = "plutus:v1" /\ version = Kupo.PlutusV1) \/
      (Kupo.Raw.language s = "plutus:v2" /\ version = Kupo.PlutusV2) ->
      (forall bytes, reencode (Kupo.Raw.script s) = Js.Ok bytes ->
         exists u, outcome = Js.Ok u /\
                   Kupo.scriptRef u =
                   Kupo.ScriptOf {| Kupo.type := version; Kupo.script := bytes |}) /\
      (forall e, reencode (Kupo.Raw.script s) = Js.Err e -> outcome = Js.Err e))).
Proof.
  intros Hdatum outcome answer. subst outcome.
  unfold Kupo.kupmiosUtxoToUtxo, Kupo.resolveScript, Kupo.fetchScript.
  rewrite Hdatum. cbn [Js.bind]. fold answer. split.
  - intros ->. cbn [Js.bind]. eauto.
  - intros ->. split; [|split].
    + intros ->. reflexivity.
    + intros s -> ->. cbn. eauto.
    + intros s version -> [[Hl ->]|[Hl ->]]; rewrite Hl; cbn; split.
      * intros bytes ->. cbn. eauto.
      * intros e ->. reflexivity.
      * intros bytes ->. cbn. eauto.
      * intros e ->. reflexivity.
Qed.

(** An output that carries a native script. *)
Lemma script_reference_outcomes_witness :
  exists u,
    Kupo.kupmiosUtxoToUtxo Example.kupoUrl Example.reencode
      {| Kupo.matches := fun _ => []; Kupo.datums := fun _ => None;
         Kupo.scripts := fun _ => Some {| Kupo.Raw.script := "8200581c3542acb3";
                                          Kupo.Raw.language := "native" |} |}
      (Example.output "a1" 0 None None (Some "7a")) = Js.Ok u /\
    Kupo.scriptRef u =
      Kupo.ScriptOf {| Kupo.type := Kupo.Native; Kupo.script := "8200581c3542acb3" |}.
Proof.
  apply (proj1 (proj2 (proj2 (script_reference_outcomes Example.kupoUrl Example.reencode
           {| Kupo.matches := fun _ => []; Kupo.datums := fun _ => None;
              Kupo.scripts := fun _ => Some {| Kupo.Raw.script := "8200581c3542acb3";
                                               Kupo.Raw.language := "native" |} |}
           (Example.output "a1" 0 None None (Some "7a")) None eq_refl) eq_refl))
           {| Kupo.Raw.script := "8200581c3542acb3"; Kupo.Raw.language := "native" |});
    reflexivity.
Defined.
